(** * gophpfpm: a supervisor for one php-fpm worker process

    Shallow embedding of [process.go] (package [gophpfpm]) together with
    the parts of the Go standard library ([path], [os/exec], [net],
    [time]) and of [go-ini] that the package calls.  Strings are Go
    strings (byte sequences); the byte-level routines work on
    [list ascii] and the descriptor keeps [string] fields. *)

From Stdlib Require Import ZArith Ascii String List Bool Lia.
From stdpp Require Import base option gmap strings.
Import ListNotations.

Local Open Scope bool_scope.
Local Open Scope string_scope.

(** ** Byte helpers *)

Abbreviation bytes := (list ascii).

Definition to_bytes (s : string) : bytes := list_ascii_of_string s.
Definition of_bytes (b : bytes) : string := string_of_list_ascii b.

Definition is_slash (c : ascii) : bool := Ascii.eqb c "/".
Definition is_dot (c : ascii) : bool := Ascii.eqb c ".".
Definition is_colon (c : ascii) : bool := Ascii.eqb c ":".

(** ** Package [path] of the Go standard library *)

Module path.

Local Open Scope list_scope.

(** [lazybuf] is a lazily allocated output buffer; what [Clean]
    observes of it is the sequence of the first [w] bytes written, so
    the buffer is kept as that sequence and [w] is its length. *)
Definition lazybuf := list ascii.

Definition lb_w (out : lazybuf) : nat := length out.
Definition lb_index (out : lazybuf) (i : nat) : ascii := nth i out "000"%char.
Definition lb_append (out : lazybuf) (c : ascii) : lazybuf := out ++ [c].

(** [for out.w > dotdot && out.index(out.w) != '/' { out.w-- }],
    reading the bytes of the buffer as it was before [w] moved. *)
Fixpoint back_loop (old : lazybuf) (dotdot w : nat) : nat :=
  match w with
  | 0 => 0
  | S w' =>
      if (dotdot <? w)%nat && negb (is_slash (lb_index old w))
      then back_loop old dotdot w'
      else w
  end.

(** [out.w--] followed by the loop above. *)
Definition backtrack (out : lazybuf) (dotdot : nat) : lazybuf :=
  firstn (back_loop out dotdot (lb_w out - 1)) out.

(** [r+k == n || path[r+k] == '/'], on the input from [r+k] on. *)
Definition at_elem_end (p : bytes) : bool :=
  match p with
  | [] => true
  | c :: _ => is_slash c
  end.

(** "add slash if needed" before a real path element. *)
Definition add_sep (rooted : bool) (out : lazybuf) : lazybuf :=
  if rooted && negb (lb_w out =? 1)%nat || negb rooted && negb (lb_w out =? 0)%nat
  then lb_append out "/"
  else out.

(** The ".." element: remove to the last slash, or keep it. *)
Definition dotdot_elem (rooted : bool) (out : lazybuf) (dotdot : nat)
  : lazybuf * nat :=
  if (dotdot <? lb_w out)%nat then (backtrack out dotdot, dotdot)
  else if negb rooted then
    let out1 := if (0 <? lb_w out)%nat then lb_append out "/" else out in
    let out2 := lb_append (lb_append out1 ".") "." in
    (out2, lb_w out2)
  else (out, dotdot).

(** The [for r < n] loop of [Clean]; [p] is [path[r:]].  The inner
    [copy] is the "copy element" loop, which hands the input back to
    the outer loop at the next slash. *)
Fixpoint clean_loop (rooted : bool) (p : bytes) (out : lazybuf)
    (dotdot : nat) {struct p} : lazybuf :=
  match p with
  | [] => out
  | c :: p1 =>
      let real_element :=
        (fix copy (q : bytes) (o : lazybuf) {struct q} : lazybuf :=
           match q with
           | [] => o
           | c' :: q' =>
               if is_slash c' then clean_loop rooted q o dotdot
               else copy q' (lb_append o c')
           end) p1 (lb_append (add_sep rooted out) c) in
      if is_slash c then clean_loop rooted p1 out dotdot
      else if is_dot c && at_elem_end p1 then clean_loop rooted p1 out dotdot
      else
        match p1 with
        | c1 :: p2 =>
            if is_dot c && is_dot c1 && at_elem_end p2 then
              let '(out', dotdot') := dotdot_elem rooted out dotdot in
              clean_loop rooted p2 out' dotdot'
            else real_element
        | [] => real_element
        end
  end.

(** The "copy element" loop of [clean_loop] on its own. *)
Fixpoint copy_elem (rooted : bool) (dotdot : nat) (q : bytes) (o : lazybuf)
    {struct q} : lazybuf :=
  match q with
  | [] => o
  | c' :: q' =>
      if is_slash c' then clean_loop rooted q o dotdot
      else copy_elem rooted dotdot q' (lb_append o c')
  end.

Definition clean_bytes (p : bytes) : bytes :=
  match p with
  | [] => ["."%char]
  | c0 :: p1 =>
      let rooted := is_slash c0 in
      let out :=
        if rooted then clean_loop true p1 ["/"%char] 1
        else clean_loop false p [] 0 in
      if (lb_w out =? 0)%nat then ["."%char] else out
  end.

Definition Clean (p : string) : string := of_bytes (clean_bytes (to_bytes p)).

(** [strings.Join(elem, "/")]. *)
Fixpoint join_slash (elem : list string) : string :=
  match elem with
  | [] => ""
  | [e] => e
  | e :: rest => (e ++ "/" ++ join_slash rest)%string
  end.

(** [Join]: leading empty elements are ignored, the rest is joined
    with slashes and cleaned; all elements empty gives [""]. *)
Fixpoint Join (elem : list string) : string :=
  match elem with
  | [] => ""
  | e :: rest =>
      if String.eqb e "" then Join rest else Clean (join_slash elem)
  end.

End path.

(** ** Package [ini] (github.com/go-ini/ini), as far as [Config] uses it *)

Module ini.

Local Open Scope list_scope.

(** A section keeps its keys in insertion order ([keyList]) with
    their values ([keys]); a file keeps its sections in insertion
    order ([sectionList]).  Both are kept as ordered association
    lists. *)
Record Section := mkSection {
  sec_name : string;
  sec_keys : list (string * string)
}.

Definition File := list Section.

Inductive error := ErrEmptySectionName | ErrEmptyKeyName.

Definition DEFAULT_SECTION : string := "DEFAULT".

(** [Empty()] loads empty data; loading always creates the default
    section first. *)
Definition Empty : File := [mkSection DEFAULT_SECTION []].

Fixpoint GetSection (f : File) (name : string) : option Section :=
  match f with
  | [] => None
  | s :: rest =>
      if String.eqb (sec_name s) name then Some s else GetSection rest name
  end.

(** [NewSection]: an empty name is an error, an existing section is
    returned as it is, a new one goes to the end of the list. *)
Definition NewSection (f : File) (name : string) : File * option error :=
  if String.eqb name "" then (f, Some ErrEmptySectionName)
  else
    match GetSection f name with
    | Some _ => (f, None)
    | None => (f ++ [mkSection name []], None)
    end.

Fixpoint has_key (keys : list (string * string)) (k : string) : bool :=
  match keys with
  | [] => false
  | (k', _) :: rest => String.eqb k' k || has_key rest k
  end.

Fixpoint set_value (keys : list (string * string)) (k v : string)
  : list (string * string) :=
  match keys with
  | [] => []
  | (k', v') :: rest =>
      if String.eqb k' k then (k', v) :: rest
      else (k', v') :: set_value rest k v
  end.

(** [NewKey] on a section: an empty name is an error, an existing key
    gets the new value, a new key goes to the end of [keyList]. *)
Definition NewKey (s : Section) (k v : string) : Section * option error :=
  if String.eqb k "" then (s, Some ErrEmptyKeyName)
  else if has_key (sec_keys s) k
    then (mkSection (sec_name s) (set_value (sec_keys s) k v), None)
    else (mkSection (sec_name s) (sec_keys s ++ [(k, v)]), None).

Fixpoint put_section (f : File) (s : Section) : File :=
  match f with
  | [] => []
  | s' :: rest =>
      if String.eqb (sec_name s') (sec_name s) then s :: rest
      else s' :: put_section rest s
  end.

(** [f.Section(name).NewKey(k, v)] with both results dropped, as
    [Config] calls it.  [Section] returns the named section and
    creates it when it is missing (the empty name stands for the
    default section). *)
Definition Section_NewKey (f : File) (name k v : string) : File :=
  let name := if String.eqb name "" then DEFAULT_SECTION else name in
  let f := fst (NewSection f name) in
  match GetSection f name with
  | Some s => put_section f (fst (NewKey s k v))
  | None => f
  end.

(** What [WriteTo] emits, section by section: a header line (absent
    for the first, default section) and the keys with their values.
    The default section is not written at all when it has no keys.
    A [Document] is this structure and not the text: the writer's
    layout and the quoting it applies to a value on its way into the
    text are not part of it. *)
Record Block := mkBlock {
  blk_header : option string;
  blk_entries : list (string * string)
}.

Definition Document := list Block.

Definition write_rest (f : File) : Document :=
  map (fun s => mkBlock (Some (sec_name s)) (sec_keys s)) f.

Definition WriteTo (f : File) : Document :=
  match f with
  | [] => []
  | s0 :: rest =>
      match sec_keys s0 with
      | [] => write_rest rest
      | _ :: _ => mkBlock None (sec_keys s0) :: write_rest rest
      end
  end.

Fixpoint entry_value (es : list (string * string)) (k : string)
  : option string :=
  match es with
  | [] => None
  | (k', v) :: rest => if String.eqb k' k then Some v else entry_value rest k
  end.

(** The value held in the file under key [k] of section [name], as
    [NewKey] stored it; [None] when the section or the key is
    missing. *)
Definition key_value (f : File) (name k : string) : option string :=
  match GetSection f name with
  | Some s => entry_value (sec_keys s) k
  | None => None
  end.

End ini.

(** ** The runtime the package runs on *)

(** Go [error] values, by their message. *)
Inductive error := Err (msg : string).

(** A run-time panic; the only one the package can raise by itself is a
    nil pointer dereference. *)
Inductive panic := NilDereference.

Inductive outcome (A : Type) :=
| Returned (a : A)
| Panicked (p : panic).
Arguments Returned {A} a.
Arguments Panicked {A} p.

Module time.
(** [time.Duration] counts nanoseconds in an [int64]. *)
Definition Duration := Z.
Definition Millisecond : Duration := 1000000%Z.
Definition Second : Duration := 1000000000%Z.
End time.

Module os.
Inductive Signal := SIGINT | SIGKILL.
Definition Interrupt : Signal := SIGINT.
Definition Kill : Signal := SIGKILL.

Record Process := mkProcess { Pid : Z }.
Record ProcessState := mkProcessState { ps_pid : Z; ps_status : Z }.
End os.

Module exec.
(** The fields of [exec.Cmd] that the package sets or reads;
    [Process] is nil until [Start] has spawned the process. *)
Record Cmd := mkCmd {
  Path : string;
  Args : list string;
  Process : option os.Process
}.
End exec.

(** One end of a pipe ([io.ReadCloser]) and a connection ([net.Conn]),
    by the descriptor behind them. *)
Inductive ReadCloser := PipeReader (fd : nat).
Inductive Conn := NetConn (fd : nat).

(** What the package does to the outside, in the order it does it. *)
Inductive Event :=
| EvStdoutPipe
| EvStderrPipe
| EvSpawn (path : string) (args : list string)
| EvTimer (d : time.Duration)
| EvGo
| EvDial (network address : string)
| EvSleep (d : time.Duration)
| EvSend (c : Conn)
| EvSignal (pid : Z) (sig : os.Signal)
| EvWait (pid : Z)
| EvSaveTo (file : string).

(** The answers of the operating system, fixed per run.  [env_dial k]
    is the result of the [k]-th call of [net.Dial] ([None] for an
    error) and [env_dial_cost k] the time that call takes; when a send
    and the timer are ready at the same instant, [select] takes either,
    [env_select_conn] says which.  [env_wait pid] is the state in
    which the child [pid] ends and [env_exit_after pid] the time a
    wait for it blocks. *)
Record Env := mkEnv {
  env_save : string -> option error;
  env_stdout_pipe : ReadCloser + error;
  env_stderr_pipe : ReadCloser + error;
  env_start : Z + error;
  env_dial : nat -> string -> string -> option Conn;
  env_dial_cost : nat -> N;
  env_select_conn : bool;
  env_signal : Z -> os.Signal -> option error;
  env_wait : Z -> os.ProcessState;
  env_exit_after : Z -> N
}.

(** The state outside the descriptor: files written, processes
    spawned and not yet reaped, the clock (nanoseconds), the events so
    far. *)
Record World := mkWorld {
  w_files : gmap string ini.Document;
  w_procs : gset Z;
  w_now : Z;
  w_trace : list Event
}.

Definition emit (w : World) (evs : list Event) : World :=
  mkWorld (w_files w) (w_procs w) (w_now w) (w_trace w ++ evs).

Definition elapse (w : World) (d : time.Duration) : World :=
  mkWorld (w_files w) (w_procs w) (w_now w + d)%Z (w_trace w).

(** ** Package [gophpfpm] ([process.go]) *)

(** [Process] describes a minimalistic php-fpm config that runs only
    one pool; [cmd] is nil until [Start]. *)
Record Process := mkProc {
  Exec : string;
  ConfigFile : string;
  Listen : string;
  PidFile : string;
  ErrorLog : string;
  cmd : option exec.Cmd
}.

Definition NewProcess (phpFpm : string) : Process :=
  mkProc phpFpm "" "" "" "" None.

(** [Config] builds the ini file; every result of [NewSection] and
    [NewKey] is dropped, as in the source. *)
Definition Config (proc : Process) : ini.File :=
  let f := ini.Empty in
  let f := fst (ini.NewSection f "global") in
  let f := ini.Section_NewKey f "global" "pid" (PidFile proc) in
  let f := ini.Section_NewKey f "global" "error_log" (ErrorLog proc) in
  let f := fst (ini.NewSection f "www") in
  let f := ini.Section_NewKey f "www" "listen" (Listen proc) in
  let f := ini.Section_NewKey f "www" "pm" "dynamic" in
  let f := ini.Section_NewKey f "www" "pm.max_children" "5" in
  let f := ini.Section_NewKey f "www" "pm.start_servers" "2" in
  let f := ini.Section_NewKey f "www" "pm.min_spare_servers" "1" in
  let f := ini.Section_NewKey f "www" "pm.max_spare_servers" "3" in
  f.

(** [(ini.File).SaveTo]: the file system either refuses, and the file
    named is not written, or the written form of the document ends up
    under that name. *)
Definition SaveTo (f : ini.File) (filename : string) (env : Env) (w : World)
  : option error * World :=
  let w := emit w [EvSaveTo filename] in
  match env_save env filename with
  | Some e => (Some e, w)
  | None =>
      (None, mkWorld (<[filename := ini.WriteTo f]> (w_files w))
                     (w_procs w) (w_now w) (w_trace w))
  end.

(** [SaveConfig] has no result: what [SaveTo] returns is dropped. *)
Definition SaveConfig (proc : Process) (path : string) (env : Env) (w : World)
  : Process * World :=
  let proc := mkProc (Exec proc) path (Listen proc) (PidFile proc)
                     (ErrorLog proc) (cmd proc) in
  let '(_, w) := SaveTo (Config proc) (ConfigFile proc) env w in
  (proc, w).

Definition SetDatadir (proc : Process) (prefix : string) : Process :=
  mkProc (Exec proc) (ConfigFile proc)
         (path.Join [prefix; "phpfpm.sock"])
         (path.Join [prefix; "phpfpm.pid"])
         (path.Join [prefix; "phpfpm.error_log"])
         (cmd proc).

(** *** Readiness wait *)

(** The ceiling of the readiness wait, [time.Second * 4], and the
    pause after a failed attempt, [time.Millisecond * 2]. *)
Definition ready_timeout : time.Duration := (time.Second * 4)%Z.
Definition dial_pause : time.Duration := (time.Millisecond * 2)%Z.

(** Where the goroutine of [waitConn] is: in the loop, having made [k]
    attempts; at the send [chanConn <- conn], which waits for a
    receiver because the channel is unbuffered; or past [break]. *)
Inductive gstate :=
| GRunning (k : nat)
| GBlocked (c : Conn)
| GExited.

(** The goroutine of [waitConn], observed for [fuel] iterations of its
    [for] loop, from attempt [k] at time [t] (nanoseconds since the
    goroutine started).  [recv t] tells whether a receiver is waiting
    on [chanConn] at time [t]; the receiver is one that does not come
    back once it has gone, as the [select] of [Start] is, so a send
    that finds no receiver waits for ever.  Events carry the time they
    start at. *)
Fixpoint waitConn_loop (env : Env) (listen : string) (recv : Z -> bool)
    (fuel k : nat) (t : Z) : list (Z * Event) * gstate * Z :=
  match fuel with
  | 0 => ([], GRunning k, t)
  | S fuel' =>
      let t1 := (t + Z.of_N (env_dial_cost env k))%Z in
      match env_dial env k "unix" listen with
      | None =>
          let '(evs, st, t') :=
            waitConn_loop env listen recv fuel' (S k) (t1 + dial_pause)%Z in
          ((t, EvDial "unix" listen) :: (t1, EvSleep dial_pause) :: evs, st, t')
      | Some conn =>
          if recv t1
          then ([(t, EvDial "unix" listen); (t1, EvSend conn)], GExited, t1)
          else ([(t, EvDial "unix" listen)], GBlocked conn, t1)
      end
  end.

(** [waitConn] makes the channel and starts the goroutine, which
    begins with its first attempt. *)
Definition waitConn (proc : Process) (env : Env) (recv : Z -> bool)
    (fuel : nat) : list (Z * Event) * gstate * Z :=
  waitConn_loop env (Listen proc) recv fuel 0 0.

(** The receiver on [chanConn] is the [select] of [Start]: it waits
    until the timer of [time.After] fires, [ready_timeout] after the
    start; at that very instant [select] may take either case. *)
Definition select_receiving (env : Env) (t : Z) : bool :=
  (t <? ready_timeout)%Z || (t =? ready_timeout)%Z && env_select_conn env.

(** No attempt that starts after the timer has fired can be received,
    and a failed attempt takes [dial_pause] at least: this many
    iterations decide the [select]. *)
Definition probe_fuel : nat := S (Z.to_nat (ready_timeout / dial_pause)).

Definition until (d : Z) (evs : list (Z * Event)) : list Event :=
  map snd (List.filter (fun e => (fst e <=? d)%Z) evs).

(** The results of [Start]; a nil stream is [None]. *)
Record StartResult := mkStartResult {
  stdout : option ReadCloser;
  stderr : option ReadCloser;
  err : option error
}.

Definition set_cmd (proc : Process) (c : exec.Cmd) : Process :=
  mkProc (Exec proc) (ConfigFile proc) (Listen proc) (PidFile proc)
         (ErrorLog proc) (Some c).

Definition spawned (w : World) (pid : Z) : World :=
  mkWorld (w_files w) ({[pid]} ∪ w_procs w) (w_now w) (w_trace w).

(** [Start] starts the php-fpm process in foreground mode.  The world
    it returns holds the events up to the moment [Start] returns.  The
    clock counts the readiness wait alone: what making the pipes and
    spawning the process take is not on it. *)
Definition Start (proc : Process) (env : Env) (w : World)
  : Process * StartResult * World :=
  let c := exec.mkCmd (Exec proc)
             [Exec proc; "--fpm-config"; ConfigFile proc; "-F"; "-n"; "-e"]
             None in
  let proc := set_cmd proc c in
  let w := emit w [EvStdoutPipe] in
  match env_stdout_pipe env with
  | inr e => (proc, mkStartResult None None (Some e), w)
  | inl out =>
      let w := emit w [EvStderrPipe] in
      match env_stderr_pipe env with
      | inr e => (proc, mkStartResult (Some out) None (Some e), w)
      | inl errs =>
          let w := emit w [EvSpawn (exec.Path c) (exec.Args c)] in
          match env_start env with
          | inr e => (proc, mkStartResult (Some out) (Some errs) (Some e), w)
          | inl pid =>
              let proc :=
                set_cmd proc (exec.mkCmd (exec.Path c) (exec.Args c)
                                         (Some (os.mkProcess pid))) in
              let w := spawned w pid in
              let w := emit w [EvTimer ready_timeout; EvGo] in
              let '(evs, st, t) :=
                waitConn proc env (select_receiving env) probe_fuel in
              match st with
              | GExited =>
                  (proc, mkStartResult (Some out) (Some errs) None,
                   elapse (emit w (map snd evs)) t)
              | _ =>
                  (proc,
                   mkStartResult (Some out) (Some errs) (Some (Err "time out")),
                   elapse (emit w (until ready_timeout evs)) ready_timeout)
              end
          end
      end
  end.

(** [(os.Process).Signal]: a process already reaped is finished;
    otherwise the signal is sent and the system call's error, if any,
    comes back. *)
Definition Signal (pid : Z) (sig : os.Signal) (env : Env) (w : World)
  : option error * World :=
  if decide (pid ∈ w_procs w)
  then (env_signal env pid sig, emit w [EvSignal pid sig])
  else (Some (Err "os: process already finished"), w).

(** [Stop] stops the php-fpm process with SIGINT instead of killing.
    [proc.cmd.Process] dereferences [proc.cmd], and [Signal] its
    receiver. *)
Definition Stop (proc : Process) (env : Env) (w : World)
  : outcome (option error) * World :=
  match cmd proc with
  | None => (Panicked NilDereference, w)
  | Some c =>
      match exec.Process c with
      | None => (Panicked NilDereference, w)
      | Some p =>
          let '(e, w) := Signal (os.Pid p) os.Interrupt env w in
          (Returned e, w)
      end
  end.

Definition reaped (w : World) (pid : Z) : World :=
  mkWorld (w_files w) (w_procs w ∖ {[pid]}) (w_now w) (w_trace w).

(** [Wait] waits for the process to finish and reaps it: it blocks
    until the child has ended, returns its state, and the child is
    gone.  When there is no such child any more, because it was waited
    for already, the system call fails at once. *)
Definition Wait (proc : Process) (env : Env) (w : World)
  : outcome (option os.ProcessState * option error) * World :=
  match cmd proc with
  | None => (Panicked NilDereference, w)
  | Some c =>
      match exec.Process c with
      | None => (Panicked NilDereference, w)
      | Some p =>
          let pid := os.Pid p in
          let w1 := emit w [EvWait pid] in
          if decide (pid ∈ w_procs w)
          then (Returned (Some (env_wait env pid), None),
                reaped (elapse w1 (Z.of_N (env_exit_after env pid))) pid)
          else (Returned (None, Some (Err "wait: no child processes")), w1)
      end
  end.

(** *** Address resolution *)

Module resolver.

Local Open Scope list_scope.

Definition is_digit (c : ascii) : bool :=
  (48 <=? nat_of_ascii c)%nat && (nat_of_ascii c <=? 57)%nat.

(** A non-empty sequence of decimal digits. *)
Definition is_digits (b : bytes) : bool :=
  negb (length b =? 0)%nat && forallb is_digit b.

Definition has_colon (b : bytes) : bool := existsb is_colon b.

(** Split on the last colon: what is before it and what is after. *)
Fixpoint split_last_colon (b : bytes) : option (bytes * bytes) :=
  match b with
  | [] => None
  | c :: rest =>
      match split_last_colon rest with
      | Some (host, port) => Some (c :: host, port)
      | None => if is_colon c then Some ([], rest) else None
      end
  end.

(** Modelled from the spec: the method [Address] of [Process], which
    the tests call and [process.go] does not define.  The spec's
    algorithm: a string that is only digits is a port and gives tcp
    with a colon put before it; a string without a colon is a socket
    path and gives unix, unchanged; any other string is split on its
    last colon and gives tcp, with [":<port>"] when nothing is before
    the colon and ["<host>:<port>"] otherwise. *)
Definition Address_bytes (listen : bytes) : string * bytes :=
  if is_digits listen then ("tcp", ":"%char :: listen)
  else
    match split_last_colon listen with
    | None => ("unix", listen)
    | Some (host, port) =>
        match host with
        | [] => ("tcp", ":"%char :: port)
        | _ :: _ => ("tcp", host ++ ":"%char :: port)
        end
    end.

End resolver.

(** Modelled from the spec: [Address], the resolver of the listen
    specification of a descriptor, on strings. *)
Definition Address (proc : Process) : string * string :=
  let '(network, address) := resolver.Address_bytes (to_bytes (Listen proc)) in
  (network, of_bytes address).

(** ** Vocabulary of the properties *)

(** Events of the readiness wait: the timer, the goroutine and what
    the goroutine does. *)
Definition is_readiness (ev : Event) : bool :=
  match ev with
  | EvTimer _ | EvGo | EvDial _ _ | EvSleep _ | EvSend _ => true
  | _ => false
  end.

(** Events that end or reap a process. *)
Definition is_cleanup (ev : Event) : bool :=
  match ev with
  | EvSignal _ _ | EvWait _ => true
  | _ => false
  end.

(** Events of a connection attempt that failed or is under way. *)
Definition is_attempt (ev : Event) : bool :=
  match ev with
  | EvDial _ _ | EvSleep _ => true
  | _ => false
  end.

Definition is_send (ev : Event) : bool :=
  match ev with
  | EvSend _ => true
  | _ => false
  end.

(** The time at which attempt [k + n] returns, when the loop starts
    attempt [k] at time [t] and the attempts before it fail. *)
Fixpoint dial_done (env : Env) (k n : nat) (t : Z) : Z :=
  match n with
  | 0 => (t + Z.of_N (env_dial_cost env k))%Z
  | S n' =>
      dial_done env (S k) n' (t + Z.of_N (env_dial_cost env k) + dial_pause)%Z
  end.

(** A run of the loop that handed off exactly one connection and
    ended: the goroutine is past [break], and its events are attempts
    followed by one send, which is the last event. *)
Definition handed_off_once (r : list (Z * Event) * gstate * Z) : Prop :=
  let '(evs, st, _) := r in
  st = GExited /\
  exists pre c, map snd evs = (pre ++ [EvSend c])%list /\
                forallb is_attempt pre = true.

(** The claim that a successful attempt is always handed off: when
    attempt [k + n] is the first to succeed, every run of the loop
    that is watched past it has handed the connection off once and
    ended. *)
Definition handoff_claim (env : Env) (listen : string) (recv : Z -> bool)
    (k : nat) (t : Z) : Prop :=
  forall n c,
    (forall i, i < n -> env_dial env (k + i) "unix" listen = None) ->
    env_dial env (k + n) "unix" listen = Some c ->
    forall fuel, n < fuel ->
      handed_off_once (waitConn_loop env listen recv fuel k t).

(** A path element that [Clean] copies as it is: not empty, without a
    slash, and not starting with a dot. *)
Definition plain_elem (name : bytes) : bool :=
  match name with
  | [] => false
  | c :: rest =>
      negb (is_slash c) && negb (is_dot c) && negb (existsb is_slash rest)
  end.

(** A real path element, as the last case of the loop of [Clean]
    meets it: not empty, without a slash, and not the single dot. *)
Definition real_elem (e : bytes) : bool :=
  match e with
  | [] => false
  | c :: rest =>
      negb (existsb is_slash e) && negb (is_dot c && path.at_elem_end rest)
  end.

(** The buffer starts with the element ".". *)
Definition first_is_dot (out : path.lazybuf) : bool :=
  match out with
  | [] => false
  | c :: rest => is_dot c && path.at_elem_end rest
  end.

Definition starts_with_slash (out : path.lazybuf) : bool :=
  match out with
  | [] => false
  | c :: _ => is_slash c
  end.

(** What the loop of [Clean] keeps true of its buffer and of [dotdot]:
    on a rooted path the buffer starts with the slash and [dotdot] is
    1; otherwise the buffer does not start with a slash nor with the
    element ".", and [dotdot] is never 1. *)
Definition clean_inv (rooted : bool) (out : path.lazybuf) (dotdot : nat) : Prop :=
  if rooted
  then starts_with_slash out = true /\ dotdot = 1
  else starts_with_slash out = false /\ first_is_dot out = false
       /\ dotdot <> 1.

(** What the joined path is for a cleaned directory [C]. *)
Definition under (C name : string) : string :=
  if String.eqb C "." then name
  else if String.eqb C "/" then "/" ++ name
  else C ++ "/" ++ name.

Definition under_bytes (C name : bytes) : bytes :=
  match C with
  | [c] => if is_dot c then name
           else if is_slash c then (c :: name)%list
           else (C ++ "/"%char :: name)%list
  | _ => (C ++ "/"%char :: name)%list
  end.

(** The world just before the [select] of [Start]. *)
Definition before_select (proc : Process) (w : World) (pid : Z) : World :=
  emit (spawned
          (emit (emit (emit w [EvStdoutPipe]) [EvStderrPipe])
                [EvSpawn (Exec proc)
                   [Exec proc; "--fpm-config"; ConfigFile proc; "-F"; "-n"; "-e"]])
          pid)
       [EvTimer ready_timeout; EvGo].

Definition started (proc : Process) (pid : Z) : Process :=
  set_cmd proc
    (exec.mkCmd (Exec proc)
       [Exec proc; "--fpm-config"; ConfigFile proc; "-F"; "-n"; "-e"]
       (Some (os.mkProcess pid))).

(** [D] without its trailing slashes. *)
Fixpoint trim_slashes_rev (r : bytes) : bytes :=
  match r with
  | [] => []
  | c :: r' => if is_slash c then trim_slashes_rev r' else r
  end.

Definition trim_slashes (D : string) : string :=
  of_bytes (rev (trim_slashes_rev (rev (to_bytes D)))).

(** What the comment of [SetDatadir] and the example of the tests
    say it does, a trailing slash apart: the three files are [D], a
    slash and the file name, a trailing slash of [D] not being
    doubled. *)
Definition datadir_claim (D : string) : Prop :=
  forall proc,
    PidFile (SetDatadir proc D) = trim_slashes D ++ "/phpfpm.pid"
    /\ ErrorLog (SetDatadir proc D) = trim_slashes D ++ "/phpfpm.error_log"
    /\ Listen (SetDatadir proc D) = trim_slashes D ++ "/phpfpm.sock".

Definition is_dial (ev : Event) : bool :=
  match ev with
  | EvDial _ _ => true
  | _ => false
  end.

Definition is_spawn (ev : Event) : bool :=
  match ev with
  | EvSpawn _ _ => true
  | _ => false
  end.

(** The arguments [Start] gives the worker. *)
Definition fpm_args (exe conf : string) : list string :=
  [exe; "--fpm-config"; conf; "-F"; "-n"; "-e"].

(** ** Concrete runs *)

Definition world0 : World := mkWorld ∅ ∅ 0 [].

(** A system on which everything works and the worker accepts the
    third connection attempt on its unix socket. *)
Definition env_ok : Env :=
  mkEnv (fun _ => None) (inl (PipeReader 3)) (inl (PipeReader 4)) (inl 4242%Z)
        (fun k network _ =>
           if String.eqb network "unix" && (2 <=? k)%nat
           then Some (NetConn 5) else None)
        (fun _ => 50000%N) false (fun _ _ => None)
        (fun pid => os.mkProcessState pid 0) (fun _ => 50000000%N).

(** Nothing ever listens. *)
Definition env_deaf : Env :=
  mkEnv (fun _ => None) (inl (PipeReader 3)) (inl (PipeReader 4)) (inl 4242%Z)
        (fun _ _ _ => None)
        (fun _ => 50000%N) false (fun _ _ => None)
        (fun pid => os.mkProcessState pid 0) (fun _ => 50000000%N).

(** The worker listens on tcp 127.0.0.1:9000, and only there. *)
Definition env_tcp : Env :=
  mkEnv (fun _ => None) (inl (PipeReader 3)) (inl (PipeReader 4)) (inl 4242%Z)
        (fun _ network address =>
           if String.eqb network "tcp" && String.eqb address "127.0.0.1:9000"
           then Some (NetConn 5) else None)
        (fun _ => 50000%N) false (fun _ _ => None)
        (fun pid => os.mkProcessState pid 0) (fun _ => 50000000%N).

(** The worker is slow: the first attempt connects, but only returns
    after five seconds. *)
Definition env_late : Env :=
  mkEnv (fun _ => None) (inl (PipeReader 3)) (inl (PipeReader 4)) (inl 4242%Z)
        (fun _ _ _ => Some (NetConn 5))
        (fun _ => 5000000000%N) false (fun _ _ => None)
        (fun pid => os.mkProcessState pid 0) (fun _ => 50000000%N).

(** The file system refuses every write; no pipe can be made. *)
Definition env_broken : Env :=
  mkEnv (fun _ => Some (Err "permission denied"))
        (inr (Err "too many open files")) (inr (Err "too many open files"))
        (inr (Err "no such file or directory"))
        (fun _ _ _ => None)
        (fun _ => 50000%N) false (fun _ _ => None)
        (fun pid => os.mkProcessState pid 0) (fun _ => 0%N).

Definition proc_var : Process :=
  SetDatadir (NewProcess "/usr/sbin/php5-fpm") "/tmp/var".

Definition proc_tcp : Process :=
  mkProc "/usr/sbin/php5-fpm" "/etc/fpm.conf" "127.0.0.1:9000"
         "/tmp/fpm.pid" "/tmp/fpm.log" None.

(** A descriptor whose process runs, and the world it runs in. *)
Definition proc_running : Process :=
  mkProc "/usr/sbin/php5-fpm" "/etc/fpm.conf" "/tmp/var/phpfpm.sock"
         "/tmp/var/phpfpm.pid" "/tmp/var/phpfpm.error_log"
         (Some (exec.mkCmd "/usr/sbin/php5-fpm" ["/usr/sbin/php5-fpm"]
                           (Some (os.mkProcess 4242)))).

Definition world_running : World := mkWorld ∅ {[4242%Z]} 0 [].

(** * Properties *)

(** ** [path.Clean] on known inputs *)

Example Clean_ex1 : path.Clean "/a//b/./c/../d/" = "/a/b/d".
Proof. reflexivity. Qed.
Example Clean_ex2 : path.Clean "../../x" = "../../x".
Proof. reflexivity. Qed.
Example Clean_ex3 : path.Clean "a/../.." = "..".
Proof. reflexivity. Qed.
Example Clean_ex4 : path.Clean "/../a" = "/a".
Proof. reflexivity. Qed.
Example Clean_ex5 : path.Clean "" = ".".
Proof. reflexivity. Qed.
Example Clean_ex6 : path.Clean "abc/def/../../.." = "..".
Proof. reflexivity. Qed.
Example Clean_ex7 : path.Clean "abc/./../def" = "def".
Proof. reflexivity. Qed.
Example Clean_ex8 : path.Clean "/abc/def/../../../ghi/jkl/../../../mno" = "/mno".
Proof. reflexivity. Qed.
Example Join_ex1 : path.Join ["a/"; "phpfpm.pid"] = "a/phpfpm.pid".
Proof. reflexivity. Qed.
Example Join_ex2 : path.Join [""; "phpfpm.pid"] = "phpfpm.pid".
Proof. reflexivity. Qed.

Example Address_ex1 : Address proc_tcp = ("tcp", "127.0.0.1:9000").
Proof. reflexivity. Qed.
Example Address_ex2 :
  Address (mkProc "" "" "12345" "" "" None) = ("tcp", ":12345").
Proof. reflexivity. Qed.
Example Address_ex3 :
  Address (mkProc "" "" "hello.sock" "" "" None) = ("unix", "hello.sock").
Proof. reflexivity. Qed.
Example Address_ex4 :
  Address (mkProc "" "" "/path/to/hello.sock" "" "" None)
  = ("unix", "/path/to/hello.sock").
Proof. reflexivity. Qed.

(** ** The configuration document *)

(** In memory the file of [Config] lists the default section of
    [ini.Empty] before the two sections [Config] makes; the default
    section has no key. *)
Lemma Config_sections (proc : Process) :
  map ini.sec_name (Config proc) = ["DEFAULT"; "global"; "www"]
  /\ ini.GetSection (Config proc) "DEFAULT" = Some (ini.mkSection "DEFAULT" []).
Proof. split; reflexivity. Qed.

(** C7, as amended.  For every descriptor the file that [Config]
    builds has exactly three sections: the default section that
    [ini.Empty] brings, which has no key, and after it the two that
    [Config] makes, [global] and [www]; the pool manager keys are the
    constants 5, 2, 1 and 3 whatever the descriptor holds; [listen],
    [pid] and [error_log] are the fields [Listen], [PidFile] and
    [ErrorLog] of the descriptor, unchanged. *)
Theorem Config_sections_and_keys (proc : Process) :
  let f := Config proc in
  length f = 3
  /\ map ini.sec_name f = ["DEFAULT"; "global"; "www"]
  /\ ini.GetSection f "DEFAULT" = Some (ini.mkSection "DEFAULT" [])
  /\ ini.key_value f "www" "pm" = Some "dynamic"
  /\ ini.key_value f "www" "pm.max_children" = Some "5"
  /\ ini.key_value f "www" "pm.start_servers" = Some "2"
  /\ ini.key_value f "www" "pm.min_spare_servers" = Some "1"
  /\ ini.key_value f "www" "pm.max_spare_servers" = Some "3"
  /\ ini.key_value f "www" "listen" = Some (Listen proc)
  /\ ini.key_value f "global" "pid" = Some (PidFile proc)
  /\ ini.key_value f "global" "error_log" = Some (ErrorLog proc).
Proof. repeat split; reflexivity. Qed.

(** C7, as stated, fails: the file of [Config] has the default section
    of [ini.Empty] besides [global] and [www], three sections and not
    two. *)
Lemma Config_has_default_section :
  map ini.sec_name (Config proc_var) = ["DEFAULT"; "global"; "www"]
  /\ length (Config proc_var) <> 2.
Proof. split; [reflexivity | discriminate]. Qed.

(** ** Saving the configuration *)

Lemma SaveTo_failed f filename env w e :
  env_save env filename = Some e ->
  SaveTo f filename env w = (Some e, emit w [EvSaveTo filename]).
Proof. intros H. unfold SaveTo. now rewrite H. Qed.

Lemma SaveTo_written f filename env w :
  env_save env filename = None ->
  fst (SaveTo f filename env w) = None
  /\ w_files (snd (SaveTo f filename env w)) !! filename = Some (ini.WriteTo f).
Proof.
  intros H. unfold SaveTo. rewrite H. cbn. split; [reflexivity|].
  apply lookup_insert_eq.
Qed.

(** C9.  For every path, [SaveConfig] sets [ConfigFile] to that path
    and gives back the descriptor and nothing else, whether the
    document reached the disk or not: when saving fails the files are
    as before, so [ConfigFile] can name a file that does not exist. *)
Theorem SaveConfig_sets_path_drops_failure
    (proc : Process) (path : string) (env : Env) (w : World) :
  let '(proc', w') := SaveConfig proc path env w in
  ConfigFile proc' = path
  /\ (env_save env path = None ->
      w_files w' !! path = Some (ini.WriteTo (Config proc')))
  /\ (forall e, env_save env path = Some e ->
      w_files w' = w_files w
      /\ (w_files w !! path = None -> w_files w' !! (ConfigFile proc') = None)).
Proof.
  unfold SaveConfig. cbn [ConfigFile].
  destruct (SaveTo _ path env w) as [r w'] eqn:E.
  split; [reflexivity|]. split.
  - intros Hok. pose proof (SaveTo_written
      (Config (mkProc (Exec proc) path (Listen proc) (PidFile proc)
                      (ErrorLog proc) (cmd proc))) path env w Hok) as [_ Hw].
    rewrite E in Hw. exact Hw.
  - intros e He. rewrite (SaveTo_failed _ _ _ _ _ He) in E.
    injection E as _ <-. cbn. split; [reflexivity | trivial].
Qed.

Lemma SaveConfig_failure_witness :
  let '(proc', w') := SaveConfig proc_var "/etc/fpm.conf" env_broken world0 in
  ConfigFile proc' = "/etc/fpm.conf"
  /\ w_files w' !! ConfigFile proc' = None.
Proof.
  pose proof (SaveConfig_sets_path_drops_failure
                proc_var "/etc/fpm.conf" env_broken world0) as H.
  destruct (SaveConfig proc_var "/etc/fpm.conf" env_broken world0) as [p' w'].
  destruct H as (Hp & _ & Hf). split; [exact Hp|].
  destruct (Hf (Err "permission denied") eq_refl) as [_ Hn].
  apply Hn. reflexivity.
Defined.

(** ** Stop *)

(** C5.  With a process spawned and not reaped, [Stop] sends it
    [os.Interrupt], which is not [os.Kill], sends nothing else, and
    returns what the delivery returned; on a descriptor without a
    command, as [NewProcess] makes it, [Stop] does not return: it
    panics on the nil handle and sends nothing. *)
Theorem Stop_interrupts_or_panics (env : Env) (w : World) :
  (forall proc c p,
      cmd proc = Some c -> exec.Process c = Some p -> os.Pid p ∈ w_procs w ->
      Stop proc env w
      = (Returned (env_signal env (os.Pid p) os.SIGINT),
         emit w [EvSignal (os.Pid p) os.SIGINT]))
  /\ os.Interrupt = os.SIGINT
  /\ os.Interrupt <> os.Kill
  /\ (forall proc, cmd proc = None ->
        Stop proc env w = (Panicked NilDereference, w))
  /\ (forall phpFpm, Stop (NewProcess phpFpm) env w = (Panicked NilDereference, w)).
Proof.
  split; [|split; [reflexivity|split; [discriminate|split]]].
  - intros proc c p Hc Hp Hin. unfold Stop, Signal. rewrite Hc, Hp.
    destruct (decide (os.Pid p ∈ w_procs w)); [reflexivity | contradiction].
  - intros proc Hc. unfold Stop. now rewrite Hc.
  - reflexivity.
Qed.

Lemma Stop_interrupts_witness :
  Stop proc_running env_ok world_running
  = (Returned None, emit world_running [EvSignal 4242 os.SIGINT])
  /\ Stop (NewProcess "/usr/sbin/php5-fpm") env_ok world_running
     = (Panicked NilDereference, world_running).
Proof.
  destruct (Stop_interrupts_or_panics env_ok world_running)
    as (Hrun & _ & _ & Hnil & _).
  split.
  - apply (Hrun proc_running
             (exec.mkCmd "/usr/sbin/php5-fpm" ["/usr/sbin/php5-fpm"]
                         (Some (os.mkProcess 4242)))
             (os.mkProcess 4242) eq_refl eq_refl).
    cbn. apply elem_of_singleton. reflexivity.
  - apply (Hnil (NewProcess "/usr/sbin/php5-fpm")). reflexivity.
Defined.

(** ** The goroutine of [waitConn] *)

Section WaitConn.

Variables (env : Env) (listen : string) (recv : Z -> bool).

Lemma forallb_snoc {A} (f : A -> bool) (l : list A) (x : A) :
  forallb f (l ++ [x])%list = forallb f l && f x.
Proof. rewrite forallb_app. cbn. now rewrite andb_true_r. Qed.

(** What a run of the loop looks like, by the place it has reached. *)
Lemma waitConn_loop_shape (fuel k : nat) (t : Z) :
  match waitConn_loop env listen recv fuel k t with
  | (evs, GExited, t') =>
      (exists pre c, map snd evs = (pre ++ [EvSend c])%list
                     /\ forallb is_attempt pre = true)
      /\ recv t' = true
  | (evs, GBlocked c, t') =>
      forallb is_attempt (map snd evs) = true /\ recv t' = false
  | (evs, GRunning k', t') =>
      forallb is_attempt (map snd evs) = true /\ k' = k + fuel
  end.
Proof.
  revert k t. induction fuel as [|fuel IH]; intros k t.
  - cbn. split; [reflexivity | lia].
  - cbn [waitConn_loop].
    destruct (env_dial env k "unix" listen) as [conn|].
    + destruct (recv (t + Z.of_N (env_dial_cost env k))) eqn:Hr.
      * split; [|exact Hr]. exists [EvDial "unix" listen], conn.
        split; reflexivity.
      * split; [reflexivity | exact Hr].
    + specialize (IH (S k)
                     (t + Z.of_N (env_dial_cost env k) + dial_pause)%Z).
      destruct (waitConn_loop env listen recv fuel (S k) _)
        as [[evs st] t'].
      destruct st as [k'|c|].
      * destruct IH as [Ha ->]. split; [exact Ha | lia].
      * exact IH.
      * destruct IH as [(pre & c & Hev & Hpre) Hr]. split; [|exact Hr].
        exists (EvDial "unix" listen :: EvSleep dial_pause :: pre), c.
        cbn. rewrite Hev. split; [reflexivity | exact Hpre].
Qed.

(** Every connection attempt of the loop is made on the unix
    transport, to the listen string itself. *)
Lemma waitConn_loop_dials (fuel k : nat) (t : Z) :
  forall ts network address,
    In (ts, EvDial network address)
       (fst (fst (waitConn_loop env listen recv fuel k t))) ->
    network = "unix" /\ address = listen.
Proof.
  revert k t. induction fuel as [|fuel IH]; intros k t ts network address.
  - cbn. tauto.
  - cbn [waitConn_loop].
    destruct (env_dial env k "unix" listen) as [conn|].
    + destruct (recv _); cbn; intros H;
        repeat (destruct H as [H|H]; [inversion H; subst; auto|]);
        contradiction.
    + specialize (IH (S k)
                     (t + Z.of_N (env_dial_cost env k) + dial_pause)%Z
                     ts network address).
      destruct (waitConn_loop env listen recv fuel (S k) _)
        as [[evs st] t'].
      cbn in *. intros [H|[H|H]]; [inversion H; subst; auto | inversion H | auto].
Qed.

(** While every attempt fails the loop goes on. *)
Lemma waitConn_loop_all_fail (fuel k : nat) (t : Z) :
  (forall i, env_dial env i "unix" listen = None) ->
  snd (fst (waitConn_loop env listen recv fuel k t)) = GRunning (k + fuel).
Proof.
  intros Hfail. revert k t. induction fuel as [|fuel IH]; intros k t.
  - cbn. f_equal. lia.
  - cbn [waitConn_loop]. rewrite Hfail.
    specialize (IH (S k) (t + Z.of_N (env_dial_cost env k) + dial_pause)%Z).
    destruct (waitConn_loop env listen recv fuel (S k) _) as [[evs st] t'].
    cbn in *. rewrite IH. f_equal. lia.
Qed.

(** The first attempt that succeeds, with a receiver waiting when it
    returns, ends the loop there, however long the loop is watched. *)
Lemma waitConn_loop_success (n : nat) :
  forall (k : nat) (t : Z) (c : Conn),
    (forall i, i < n -> env_dial env (k + i) "unix" listen = None) ->
    env_dial env (k + n) "unix" listen = Some c ->
    recv (dial_done env k n t) = true ->
    forall fuel, n < fuel ->
      exists pre,
        waitConn_loop env listen recv fuel k t
        = (pre ++ [(dial_done env k n t, EvSend c)], GExited,
           dial_done env k n t)%list
        /\ forallb is_attempt (map snd pre) = true.
Proof.
  induction n as [|n IH]; intros k t c Hfail Hok Hrecv fuel Hfuel.
  - destruct fuel as [|fuel]; [lia|].
    cbn [waitConn_loop dial_done] in *. rewrite Nat.add_0_r in Hok.
    rewrite Hok, Hrecv. exists [(t, EvDial "unix" listen)].
    split; reflexivity.
  - destruct fuel as [|fuel]; [lia|].
    cbn [waitConn_loop dial_done] in *.
    pose proof (Hfail 0 ltac:(lia)) as H0. rewrite Nat.add_0_r in H0.
    rewrite H0.
    destruct (IH (S k) (t + Z.of_N (env_dial_cost env k) + dial_pause)%Z c)
      with (fuel := fuel) as (pre & Hrun & Hpre).
    + intros i Hi. replace (S k + i) with (k + S i) by lia.
      apply Hfail. lia.
    + replace (S k + n) with (k + S n) by lia. exact Hok.
    + exact Hrecv.
    + lia.
    + rewrite Hrun.
      exists ((t, EvDial "unix" listen)
                :: ((t + Z.of_N (env_dial_cost env k))%Z, EvSleep dial_pause)
                :: pre).
      split; [reflexivity | cbn; exact Hpre].
Qed.

End WaitConn.

(** ** Start *)

Lemma until_incl (d : Z) (evs : list (Z * Event)) (ev : Event) :
  In ev (until d evs) -> In ev (map snd evs).
Proof.
  unfold until. rewrite !in_map_iff. intros (x & Hx & Hin).
  exists x. split; [exact Hx|]. apply filter_In in Hin. tauto.
Qed.

(** The goroutine dials, sleeps and sends; it does nothing else. *)
Lemma waitConn_loop_events env listen recv fuel k t (ev : Event) :
  In ev (map snd (fst (fst (waitConn_loop env listen recv fuel k t)))) ->
  is_cleanup ev = false /\ is_readiness ev = true.
Proof.
  pose proof (waitConn_loop_shape env listen recv fuel k t) as H.
  destruct (waitConn_loop env listen recv fuel k t) as [[evs st] t'].
  cbn [fst]. intros Hin.
  assert (Hatt : forall l, forallb is_attempt l = true -> In ev l ->
                           is_cleanup ev = false /\ is_readiness ev = true).
  { intros l Hl Hi. rewrite forallb_forall in Hl. specialize (Hl ev Hi).
    destruct ev; try discriminate; split; reflexivity. }
  destruct st as [k'|c|].
  - destruct H as [Ha _]. eauto.
  - destruct H as [Ha _]. eauto.
  - destruct H as [(pre & c & Hev & Hpre) _]. rewrite Hev in Hin.
    apply in_app_or in Hin. destruct Hin as [Hin|[<-|[]]]; [eauto|].
    split; reflexivity.
Qed.

Lemma existsb_false_iff {A} (f : A -> bool) (l : list A) :
  existsb f l = false <-> forall x, In x l -> f x = false.
Proof.
  induction l as [|a l IH]; cbn.
  - split; [intros _ x [] | reflexivity].
  - rewrite orb_false_iff, IH. split.
    + intros [Ha Hl] x [<-|Hx]; auto.
    + intros H. split; [apply H; now left | intros x Hx; apply H; now right].
Qed.

Lemma Start_spawned proc env w o s pid :
  env_stdout_pipe env = inl o ->
  env_stderr_pipe env = inl s ->
  env_start env = inl pid ->
  Start proc env w =
  let '(evs, st, t) :=
    waitConn_loop env (Listen proc) (select_receiving env) probe_fuel 0 0 in
  match st with
  | GExited =>
      (started proc pid, mkStartResult (Some o) (Some s) None,
       elapse (emit (before_select proc w pid) (map snd evs)) t)
  | _ =>
      (started proc pid,
       mkStartResult (Some o) (Some s) (Some (Err "time out")),
       elapse (emit (before_select proc w pid) (until ready_timeout evs))
              ready_timeout)
  end.
Proof. intros Ho Hs Hp. unfold Start. rewrite Ho, Hs, Hp. reflexivity. Qed.

Lemma before_select_trace proc w pid :
  w_trace (before_select proc w pid) =
  (w_trace w ++
    [EvStdoutPipe; EvStderrPipe;
     EvSpawn (Exec proc)
       [Exec proc; "--fpm-config"; ConfigFile proc; "-F"; "-n"; "-e"];
     EvTimer ready_timeout; EvGo])%list.
Proof. cbn. now rewrite <- !List.app_assoc. Qed.

(** C3.  When making the stdout pipe, making the stderr pipe or
    spawning the process fails, [Start] returns that failure at once:
    the clock has not moved, nothing was spawned, and no timer, no
    goroutine and no connection attempt is among the events. *)
Theorem Start_capture_or_spawn_failure_skips_wait
    (proc : Process) (env : Env) (w : World) (e : error) :
  env_stdout_pipe env = inr e
  \/ (exists o, env_stdout_pipe env = inl o /\ env_stderr_pipe env = inr e)
  \/ (exists o s, env_stdout_pipe env = inl o /\ env_stderr_pipe env = inl s
                  /\ env_start env = inr e) ->
  let '(proc', r, w') := Start proc env w in
  err r = Some e
  /\ w_now w' = w_now w
  /\ w_procs w' = w_procs w
  /\ exists evs, w_trace w' = (w_trace w ++ evs)%list
                 /\ existsb is_readiness evs = false.
Proof.
  intros [Ho | [(o & Ho & Hs) | (o & s & Ho & Hs & Hp)]]; unfold Start.
  - rewrite Ho. cbn. repeat split. exists [EvStdoutPipe]. split; reflexivity.
  - rewrite Ho, Hs. cbn. repeat split.
    exists [EvStdoutPipe; EvStderrPipe].
    rewrite <- !List.app_assoc. split; reflexivity.
  - rewrite Ho, Hs, Hp. cbn. repeat split.
    exists [EvStdoutPipe; EvStderrPipe;
            EvSpawn (Exec proc)
              [Exec proc; "--fpm-config"; ConfigFile proc; "-F"; "-n"; "-e"]].
    rewrite <- !List.app_assoc. split; reflexivity.
Qed.

Lemma Start_spawn_failure_witness :
  let '(proc', r, w') := Start proc_var env_broken world0 in
  err r = Some (Err "too many open files")
  /\ w_now w' = w_now world0
  /\ w_procs w' = w_procs world0
  /\ exists evs, w_trace w' = (w_trace world0 ++ evs)%list
                 /\ existsb is_readiness evs = false.
Proof.
  apply (Start_capture_or_spawn_failure_skips_wait
           proc_var env_broken world0 (Err "too many open files")).
  left. reflexivity.
Defined.

(** C10.  When both streams were captured and the process was
    spawned, a failure of [Start] is the readiness timeout, and it
    comes with the two captured streams. *)
Theorem Start_timeout_returns_streams
    (proc : Process) (env : Env) (w : World) (o s : ReadCloser) (pid : Z) :
  env_stdout_pipe env = inl o ->
  env_stderr_pipe env = inl s ->
  env_start env = inl pid ->
  err (snd (fst (Start proc env w))) <> None ->
  snd (fst (Start proc env w))
  = mkStartResult (Some o) (Some s) (Some (Err "time out")).
Proof.
  intros Ho Hs Hp. rewrite (Start_spawned proc env w o s pid Ho Hs Hp).
  destruct (waitConn_loop _ _ _ _ _ _) as [[evs st] t].
  destruct st; cbn; intros H; [reflexivity | reflexivity | congruence].
Qed.

(** C2.  When the streams are captured, the process is spawned and no
    connection attempt ever succeeds, [Start] returns the error
    "time out" four seconds later; the process is still among the
    live ones and the descriptor still holds its handle, and no signal
    and no wait is among the events of the call. *)
Theorem Start_timeout_leaves_process_running
    (proc : Process) (env : Env) (w : World) (o s : ReadCloser) (pid : Z) :
  env_stdout_pipe env = inl o ->
  env_stderr_pipe env = inl s ->
  env_start env = inl pid ->
  (forall k network address, env_dial env k network address = None) ->
  let '(proc', r, w') := Start proc env w in
  err r = Some (Err "time out")
  /\ w_now w' = (w_now w + 4000000000)%Z
  /\ pid ∈ w_procs w'
  /\ (exists c, cmd proc' = Some c /\ exec.Process c = Some (os.mkProcess pid))
  /\ exists evs, w_trace w' = (w_trace w ++ evs)%list
                 /\ existsb is_cleanup evs = false.
Proof.
  intros Ho Hs Hp Hdeaf. rewrite (Start_spawned proc env w o s pid Ho Hs Hp).
  pose proof (waitConn_loop_all_fail env (Listen proc) (select_receiving env)
                probe_fuel 0 0 (fun i => Hdeaf i _ _)) as Hst.
  pose proof (waitConn_loop_events env (Listen proc) (select_receiving env)
                probe_fuel 0 0) as Hev.
  destruct (waitConn_loop _ _ _ _ _ _) as [[evs st] t].
  cbn [fst snd] in Hst, Hev. subst st.
  split; [reflexivity|]. split; [reflexivity|]. split.
  { cbn. apply elem_of_union_l, elem_of_singleton. reflexivity. }
  split.
  { eexists. split; reflexivity. }
  exists ([EvStdoutPipe; EvStderrPipe;
           EvSpawn (Exec proc)
             [Exec proc; "--fpm-config"; ConfigFile proc; "-F"; "-n"; "-e"];
           EvTimer ready_timeout; EvGo] ++ until ready_timeout evs)%list.
  split.
  - change (w_trace (elapse (emit (before_select proc w pid)
                                  (until ready_timeout evs)) ready_timeout))
      with (w_trace (before_select proc w pid) ++ until ready_timeout evs)%list.
    rewrite before_select_trace. now rewrite <- List.app_assoc.
  - apply existsb_false_iff. intros ev Hin.
    apply in_app_or in Hin. destruct Hin as [Hin|Hin].
    + cbn in Hin. intuition (subst; reflexivity).
    + apply until_incl in Hin. apply Hev in Hin. tauto.
Qed.

Lemma Start_timeout_witness :
  let '(proc', r, w') := Start proc_var env_deaf world0 in
  err r = Some (Err "time out")
  /\ w_now w' = (w_now world0 + 4000000000)%Z
  /\ 4242%Z ∈ w_procs w'
  /\ (exists c, cmd proc' = Some c /\ exec.Process c = Some (os.mkProcess 4242))
  /\ exists evs, w_trace w' = (w_trace world0 ++ evs)%list
                 /\ existsb is_cleanup evs = false.
Proof.
  apply (Start_timeout_leaves_process_running
           proc_var env_deaf world0 (PipeReader 3) (PipeReader 4) 4242%Z);
    reflexivity.
Defined.

Lemma Start_timeout_streams_witness :
  snd (fst (Start proc_var env_deaf world0))
  = mkStartResult (Some (PipeReader 3)) (Some (PipeReader 4))
                  (Some (Err "time out")).
Proof.
  apply (Start_timeout_returns_streams
           proc_var env_deaf world0 (PipeReader 3) (PipeReader 4) 4242%Z);
    [reflexivity | reflexivity | reflexivity |].
  vm_compute. discriminate.
Defined.

(** *** The iterations that decide the [select] *)

(** An attempt that starts after the timer has fired is not received,
    and none of its events falls before the timer. *)
Lemma waitConn_loop_after_timer env listen (fuel k : nat) (t : Z) :
  (ready_timeout < t)%Z ->
  snd (fst (waitConn_loop env listen (select_receiving env) fuel k t))
  <> GExited
  /\ until ready_timeout
       (fst (fst (waitConn_loop env listen (select_receiving env) fuel k t)))
     = [].
Proof.
  revert k t. induction fuel as [|fuel IH]; intros k t Ht.
  - cbn. split; [discriminate | reflexivity].
  - cbn [waitConn_loop].
    assert (Hc : (0 <= Z.of_N (env_dial_cost env k))%Z) by lia.
    assert (Hp : (0 < dial_pause)%Z) by reflexivity.
    assert (Hrecv : select_receiving env (t + Z.of_N (env_dial_cost env k))
                    = false).
    { unfold select_receiving.
      replace (_ <? _)%Z with false by (symmetry; apply Z.ltb_ge; lia).
      replace (_ =? _)%Z with false by (symmetry; apply Z.eqb_neq; lia).
      reflexivity. }
    assert (Hlate : forall u, (t <= u)%Z -> (u <=? ready_timeout)%Z = false)
      by (intros u Hu; apply Z.leb_gt; lia).
    destruct (env_dial env k "unix" listen) as [conn|].
    + rewrite Hrecv. cbn. unfold until. cbn. rewrite Hlate by lia.
      split; [discriminate | reflexivity].
    + destruct (IH (S k) (t + Z.of_N (env_dial_cost env k) + dial_pause)%Z)
        as [Hst Hev]; [lia|].
      destruct (waitConn_loop env listen _ fuel (S k) _) as [[evs st] t'].
      cbn in *. split; [exact Hst|].
      unfold until in *. cbn. rewrite !Hlate by lia. exact Hev.
Qed.

(** Watching the goroutine for more than [probe_fuel] iterations
    changes neither which case the [select] of [Start] takes nor the
    events up to that moment. *)
Lemma waitConn_loop_decided env listen (f1 : nat) :
  forall (f2 k : nat) (t : Z),
    f1 <= f2 ->
    (ready_timeout < t + Z.of_nat f1 * dial_pause)%Z ->
    let r1 := waitConn_loop env listen (select_receiving env) f1 k t in
    let r2 := waitConn_loop env listen (select_receiving env) f2 k t in
    match snd (fst r1) with
    | GExited => r2 = r1
    | _ => snd (fst r2) <> GExited
           /\ until ready_timeout (fst (fst r2))
              = until ready_timeout (fst (fst r1))
    end.
Proof.
  induction f1 as [|f1 IH]; intros f2 k t Hle Ht.
  - cbn [waitConn_loop snd fst]. apply waitConn_loop_after_timer. lia.
  - destruct f2 as [|f2]; [lia|]. cbn [waitConn_loop].
    destruct (env_dial env k "unix" listen) as [conn|].
    + destruct (select_receiving env _); cbn.
      * reflexivity.
      * split; [discriminate | reflexivity].
    + specialize (IH f2 (S k)
                     (t + Z.of_N (env_dial_cost env k) + dial_pause)%Z).
      cbn zeta in IH.
      destruct (waitConn_loop env listen _ f1 (S k) _) as [[e1 s1] t1].
      destruct (waitConn_loop env listen _ f2 (S k) _) as [[e2 s2] t2].
      cbn [fst snd] in *.
      assert (Hgo : (ready_timeout <
                     t + Z.of_N (env_dial_cost env k) + dial_pause
                     + Z.of_nat f1 * dial_pause)%Z) by lia.
      specialize (IH ltac:(lia) Hgo).
      destruct s1.
      * destruct IH as [Hs He]. split; [exact Hs|].
        unfold until in *. cbn.
        repeat match goal with |- context [(?a <=? ?b)%Z] =>
                 destruct (a <=? b)%Z end; cbn; now rewrite ?He.
      * destruct IH as [Hs He]. split; [exact Hs|].
        unfold until in *. cbn.
        repeat match goal with |- context [(?a <=? ?b)%Z] =>
                 destruct (a <=? b)%Z end; cbn; now rewrite ?He.
      * now inversion IH.
Qed.

Lemma probe_fuel_decides env listen (fuel : nat) :
  probe_fuel <= fuel ->
  let r1 := waitConn_loop env listen (select_receiving env) probe_fuel 0 0 in
  let r2 := waitConn_loop env listen (select_receiving env) fuel 0 0 in
  match snd (fst r1) with
  | GExited => r2 = r1
  | _ => snd (fst r2) <> GExited
         /\ until ready_timeout (fst (fst r2))
            = until ready_timeout (fst (fst r1))
  end.
Proof.
  intros Hle. apply waitConn_loop_decided; [exact Hle|].
  vm_compute. reflexivity.
Qed.

(** *** The transport of the probe *)

(** C1.  The probe does not use the resolved transport.  For the
    listen specification 127.0.0.1:9000 the resolver gives tcp, yet
    every connection attempt of the probe is made on unix, to the
    string itself; with a worker that accepts tcp connections on that
    address [Start] ends in "time out". *)
Theorem waitConn_dials_unix_for_tcp_listen :
  Address proc_tcp = ("tcp", "127.0.0.1:9000")
  /\ (forall fuel k t ts network address,
        In (ts, EvDial network address)
           (fst (fst (waitConn_loop env_tcp (Listen proc_tcp)
                                    (select_receiving env_tcp) fuel k t))) ->
        network = "unix" /\ address = "127.0.0.1:9000")
  /\ env_dial env_tcp 0 "tcp" "127.0.0.1:9000" = Some (NetConn 5)
  /\ fst (fst (waitConn_loop env_tcp (Listen proc_tcp)
                             (select_receiving env_tcp) 1 0 0))
     = [(0%Z, EvDial "unix" "127.0.0.1:9000");
        (50000%Z, EvSleep dial_pause)]
  /\ err (snd (fst (Start proc_tcp env_tcp world0))) = Some (Err "time out").
Proof.
  split; [reflexivity|]. split.
  { intros fuel k t ts network address H.
    apply (waitConn_loop_dials _ _ _ _ _ _ _ _ _ H). }
  split; [reflexivity|]. split; [reflexivity|].
  rewrite (Start_spawned proc_tcp env_tcp world0 (PipeReader 3) (PipeReader 4)
             4242%Z eq_refl eq_refl eq_refl).
  pose proof (waitConn_loop_all_fail env_tcp (Listen proc_tcp)
                (select_receiving env_tcp) probe_fuel 0 0
                (fun i => eq_refl)) as Hst.
  destruct (waitConn_loop _ _ _ _ _ _) as [[evs st] t].
  cbn [fst snd] in Hst. subst st. reflexivity.
Qed.

(** *** The hand-off of the connection *)

Lemma filter_send_attempts (l : list Event) :
  forallb is_attempt l = true -> List.filter is_send l = [].
Proof.
  induction l as [|ev l IH]; [reflexivity|]. cbn.
  intros H. apply andb_prop in H as [Hev Hl].
  destruct ev; try discriminate; cbn; auto.
Qed.

(** C4, as amended.  In every run of the loop, once a connection
    attempt succeeds while a receiver is still waiting on the channel,
    the loop sends that connection, once, and ends: the send is the
    last event however long the run is watched, and all events before
    it are attempts. *)
Theorem waitConn_hands_off_once_to_waiting_receiver
    (env : Env) (listen : string) (recv : Z -> bool)
    (k n : nat) (t : Z) (c : Conn) :
  (forall i, i < n -> env_dial env (k + i) "unix" listen = None) ->
  env_dial env (k + n) "unix" listen = Some c ->
  recv (dial_done env k n t) = true ->
  forall fuel, n < fuel ->
    let r := waitConn_loop env listen recv fuel k t in
    handed_off_once r
    /\ List.filter is_send (map snd (fst (fst r))) = [EvSend c]
    /\ List.last (fst (fst r)) (0%Z, EvGo) = (dial_done env k n t, EvSend c).
Proof.
  intros Hfail Hok Hrecv fuel Hfuel.
  destruct (waitConn_loop_success env listen recv n k t c Hfail Hok Hrecv
              fuel Hfuel) as (pre & Hrun & Hpre).
  cbn zeta. rewrite Hrun. cbn [fst snd handed_off_once]. split; [|split].
  - split; [reflexivity|]. exists (map snd pre), c.
    rewrite map_app. split; [reflexivity | exact Hpre].
  - rewrite map_app, List.filter_app, (filter_send_attempts _ Hpre). reflexivity.
  - apply last_last.
Qed.

Lemma waitConn_hands_off_witness :
  let r := waitConn_loop env_ok "/tmp/var/phpfpm.sock"
                         (select_receiving env_ok) 5 0 0 in
  handed_off_once r
  /\ List.filter is_send (map snd (fst (fst r))) = [EvSend (NetConn 5)]
  /\ List.last (fst (fst r)) (0%Z, EvGo) = (4150000%Z, EvSend (NetConn 5)).
Proof.
  apply (waitConn_hands_off_once_to_waiting_receiver
           env_ok "/tmp/var/phpfpm.sock" (select_receiving env_ok)
           0 2 0%Z (NetConn 5)).
  - intros [|[|i]] Hi; [reflexivity | reflexivity | lia].
  - reflexivity.
  - reflexivity.
  - lia.
Defined.

(** C4, as stated, fails.  The worker of [env_late] accepts the first
    attempt, which returns after five seconds; by then the [select] of
    [Start] has taken the timer, no receiver is left, and the
    goroutine stays at its send: nothing is handed off and the loop
    does not end. *)
Lemma waitConn_late_success_not_handed_off :
  ~ handoff_claim env_late "/tmp/var/phpfpm.sock" (select_receiving env_late)
      0 0%Z.
Proof.
  intros H.
  specialize (H 0 (NetConn 5) (fun i Hi => ltac:(lia)) eq_refl 1 ltac:(lia)).
  destruct H as [Hst _]. discriminate Hst.
Qed.

Example waitConn_late_success_blocked (fuel : nat) :
  waitConn_loop env_late "/tmp/var/phpfpm.sock" (select_receiving env_late)
                (S fuel) 0 0
  = ([(0%Z, EvDial "unix" "/tmp/var/phpfpm.sock")], GBlocked (NetConn 5),
     5000000000%Z).
Proof. reflexivity. Qed.

Example Start_late_success_times_out :
  err (snd (fst (Start proc_var env_late world0))) = Some (Err "time out").
Proof. vm_compute. reflexivity. Qed.

(** ** Address resolution *)

Lemma to_bytes_app (a b : string) :
  to_bytes (a ++ b) = (to_bytes a ++ to_bytes b)%list.
Proof.
  induction a as [|c a IH]; [reflexivity|].
  change (c :: to_bytes (a ++ b)%string = c :: (to_bytes a ++ to_bytes b))%list.
  now rewrite IH.
Qed.

Lemma of_bytes_app (a b : bytes) :
  of_bytes (a ++ b)%list = of_bytes a ++ of_bytes b.
Proof.
  induction a as [|c a IH]; [reflexivity|].
  change (String c (of_bytes (a ++ b)%list) = String c (of_bytes a ++ of_bytes b)).
  now rewrite IH.
Qed.

Lemma of_to_bytes (s : string) : of_bytes (to_bytes s) = s.
Proof. apply string_of_list_ascii_of_string. Qed.

Lemma to_of_bytes (b : bytes) : to_bytes (of_bytes b) = b.
Proof. apply list_ascii_of_string_of_list_ascii. Qed.

Lemma split_last_colon_none (b : bytes) :
  resolver.split_last_colon b = None <-> resolver.has_colon b = false.
Proof.
  unfold resolver.has_colon.
  induction b as [|c b IH]; cbn; [tauto|].
  destruct (resolver.split_last_colon b) as [[h p]|].
  - split; [discriminate|]. intros H. apply orb_false_elim in H as [_ H].
    apply IH in H. discriminate.
  - destruct IH as [IH _]. rewrite (IH eq_refl), orb_false_r.
    destruct (is_colon c); split; congruence.
Qed.

Lemma split_last_colon_join (b host port : bytes) :
  resolver.split_last_colon b = Some (host, port) ->
  b = (host ++ ":"%char :: port)%list.
Proof.
  revert host port. induction b as [|c b IH]; cbn; intros host port H.
  - discriminate.
  - destruct (resolver.split_last_colon b) as [[h p]|].
    + injection H as <- <-. cbn. f_equal. now apply IH.
    + destruct (is_colon c) eqn:Hc; [|discriminate].
      injection H as <- <-. cbn. f_equal.
      apply Ascii.eqb_eq in Hc. exact Hc.
Qed.

Lemma digit_not_colon (c : ascii) :
  resolver.is_digit c = true -> is_colon c = false.
Proof.
  intros Hd. destruct (is_colon c) eqn:Hc; [|reflexivity].
  apply Ascii.eqb_eq in Hc. subst c. discriminate Hd.
Qed.

Lemma digits_no_colon (b : bytes) :
  resolver.is_digits b = true -> resolver.has_colon b = false.
Proof.
  unfold resolver.is_digits, resolver.has_colon. intros H.
  apply andb_prop in H as [_ H].
  induction b as [|c b IH]; [reflexivity|]. cbn in *.
  apply andb_prop in H as [Hc Hb].
  now rewrite (digit_not_colon c Hc), IH.
Qed.

Lemma has_colon_app (a b : bytes) :
  resolver.has_colon (a ++ ":"%char :: b)%list = true.
Proof.
  unfold resolver.has_colon. rewrite existsb_app. cbn. apply orb_true_r.
Qed.

Lemma Address_bytes_colon (b : bytes) :
  resolver.has_colon b = true -> resolver.Address_bytes b = ("tcp", b).
Proof.
  intros Hc. unfold resolver.Address_bytes.
  destruct (resolver.is_digits b) eqn:Hd.
  { apply digits_no_colon in Hd. congruence. }
  destruct (resolver.split_last_colon b) as [[host port]|] eqn:Hs.
  - apply split_last_colon_join in Hs. subst b.
    destruct host; reflexivity.
  - apply split_last_colon_none in Hs. congruence.
Qed.

Lemma Address_bytes_plain (b : bytes) :
  resolver.has_colon b = false -> resolver.is_digits b = false ->
  resolver.Address_bytes b = ("unix", b).
Proof.
  intros Hc Hd. unfold resolver.Address_bytes. rewrite Hd.
  apply split_last_colon_none in Hc. now rewrite Hc.
Qed.

(** C6.  The resolver is total and sorts every listen specification
    into one of three classes: a string with a colon, which is any
    string of the form ip:port, gives tcp and the string unchanged; a
    string of digits gives tcp and the string after a colon; a string
    without a colon that is not a string of digits gives unix and the
    string unchanged. *)
Theorem Address_classifies (proc : Process) :
  let b := to_bytes (Listen proc) in
  (forall ip port, Listen proc = ip ++ ":" ++ port ->
                   Address proc = ("tcp", Listen proc))
  /\ (resolver.is_digits b = true ->
      Address proc = ("tcp", ":" ++ Listen proc))
  /\ (resolver.has_colon b = false -> resolver.is_digits b = false ->
      Address proc = ("unix", Listen proc))
  /\ (resolver.has_colon b = true <->
      exists ip port, Listen proc = ip ++ ":" ++ port)
  /\ (resolver.has_colon b = true /\ resolver.is_digits b = false
      \/ resolver.has_colon b = false /\ resolver.is_digits b = true
      \/ resolver.has_colon b = false /\ resolver.is_digits b = false).
Proof.
  cbn zeta. unfold Address.
  assert (Hform : resolver.has_colon (to_bytes (Listen proc)) = true <->
                  exists ip port, Listen proc = ip ++ ":" ++ port).
  { split.
    - intros Hc.
      destruct (resolver.split_last_colon (to_bytes (Listen proc)))
        as [[host port]|] eqn:Hs.
      + apply split_last_colon_join in Hs.
        exists (of_bytes host), (of_bytes port).
        rewrite <- (of_to_bytes (Listen proc)), Hs, of_bytes_app.
        reflexivity.
      + apply split_last_colon_none in Hs. congruence.
    - intros (ip & port & ->). rewrite to_bytes_app. apply has_colon_app. }
  split; [|split; [|split; [|split; [exact Hform|]]]].
  - intros ip port Heq.
    assert (Hc : resolver.has_colon (to_bytes (Listen proc)) = true)
      by (apply Hform; eauto).
    rewrite (Address_bytes_colon _ Hc). now rewrite of_to_bytes.
  - intros Hd. unfold resolver.Address_bytes. rewrite Hd.
    change (of_bytes (":"%char :: to_bytes (Listen proc)))
      with (String ":"%char (of_bytes (to_bytes (Listen proc)))).
    now rewrite of_to_bytes.
  - intros Hc Hd. rewrite (Address_bytes_plain _ Hc Hd).
    now rewrite of_to_bytes.
  - destruct (resolver.is_digits (to_bytes (Listen proc))) eqn:Hd.
    + right; left. split; [now apply digits_no_colon | reflexivity].
    + destruct (resolver.has_colon (to_bytes (Listen proc))); auto.
Qed.

Lemma Address_classifies_witness :
  Address proc_tcp = ("tcp", "127.0.0.1:9000")
  /\ Address (mkProc "" "" "12345" "" "" None) = ("tcp", ":12345")
  /\ Address proc_var = ("unix", "/tmp/var/phpfpm.sock").
Proof.
  split; [|split].
  - destruct (Address_classifies proc_tcp) as (H & _).
    apply (H "127.0.0.1" "9000"). reflexivity.
  - destruct (Address_classifies (mkProc "" "" "12345" "" "" None))
      as (_ & H & _).
    apply H. reflexivity.
  - destruct (Address_classifies proc_var) as (_ & _ & H & _).
    apply H; reflexivity.
Defined.

(** ** [path.Clean] and [path.Join] *)

Section Clean.

Variable rooted : bool.

(** The inner loop of [clean_loop] is [copy_elem]. *)
Lemma copy_elem_inner (dd : nat) (q : bytes) (o : path.lazybuf) :
  (fix copy (q : bytes) (o : path.lazybuf) {struct q} : path.lazybuf :=
     match q with
     | [] => o
     | c' :: q' =>
         if is_slash c' then path.clean_loop rooted q o dd
         else copy q' (path.lb_append o c')
     end) q o
  = path.copy_elem rooted dd q o.
Proof.
  revert o. induction q as [|c' q IH]; intros o; [reflexivity|].
  cbn [path.copy_elem]. destruct (is_slash c'); [reflexivity | apply IH].
Qed.

(** One turn of the loop of [Clean]. *)
Lemma clean_loop_cons (c : ascii) (p1 : bytes) (out : path.lazybuf) (dd : nat) :
  path.clean_loop rooted (c :: p1) out dd =
  if is_slash c then path.clean_loop rooted p1 out dd
  else if is_dot c && path.at_elem_end p1
    then path.clean_loop rooted p1 out dd
    else
      match p1 with
      | c1 :: p2 =>
          if is_dot c && is_dot c1 && path.at_elem_end p2 then
            path.clean_loop rooted p2
              (fst (path.dotdot_elem rooted out dd))
              (snd (path.dotdot_elem rooted out dd))
          else path.copy_elem rooted dd p1
                 (path.lb_append (path.add_sep rooted out) c)
      | [] => path.copy_elem rooted dd p1
                (path.lb_append (path.add_sep rooted out) c)
      end.
Proof.
  rewrite <- !copy_elem_inner. cbn [path.clean_loop].
  destruct (is_slash c); [reflexivity|].
  destruct (is_dot c && path.at_elem_end p1); [reflexivity|].
  destruct p1 as [|c1 p2]; [reflexivity|].
  destruct (is_dot c && is_dot c1 && path.at_elem_end p2); [|reflexivity].
  destruct (path.dotdot_elem rooted out dd); reflexivity.
Qed.

Lemma at_elem_end_app (p s : bytes) :
  path.at_elem_end (p ++ "/"%char :: s)%list = path.at_elem_end p.
Proof. destruct p; reflexivity. Qed.

Lemma copy_elem_no_slash (dd : nat) (q : bytes) (o : path.lazybuf) :
  existsb is_slash q = false ->
  path.copy_elem rooted dd q o = (o ++ q)%list.
Proof.
  revert o. induction q as [|c q IH]; intros o H; cbn in *.
  - now rewrite app_nil_r.
  - apply orb_false_elim in H as [Hc Hq]. rewrite Hc, (IH _ Hq).
    unfold path.lb_append. now rewrite <- List.app_assoc.
Qed.

(** A plain element alone is copied after the separator. *)
Lemma clean_loop_plain (name : bytes) (out : path.lazybuf) (dd : nat) :
  plain_elem name = true ->
  path.clean_loop rooted name out dd = (path.add_sep rooted out ++ name)%list.
Proof.
  destruct name as [|c rest]; [discriminate|]. cbn [plain_elem].
  intros H. apply andb_prop in H as [H Hrest]. apply andb_prop in H as [Hs Hd].
  apply negb_true_iff in Hs, Hd, Hrest.
  rewrite clean_loop_cons, Hs, Hd. cbn [andb].
  destruct rest as [|c1 p2]; rewrite copy_elem_no_slash by exact Hrest;
    unfold path.lb_append; now rewrite <- List.app_assoc.
Qed.

Variable name : bytes.
Hypothesis name_plain : plain_elem name = true.

(** The loop works element by element: on a path followed by a slash
    and a plain element it leaves what it leaves on the path, then the
    separator, then the element. *)
Lemma clean_loop_join (n : nat) :
  forall (p : bytes) (out : path.lazybuf) (dd : nat),
    length p <= n ->
    path.clean_loop rooted (p ++ "/"%char :: name)%list out dd
    = (path.add_sep rooted (path.clean_loop rooted p out dd) ++ name)%list.
Proof.
  induction n as [|n IH]; intros p out dd Hlen.
  - destruct p; [|cbn in Hlen; lia].
    cbn [app]. rewrite clean_loop_cons. cbn [is_slash Ascii.eqb].
    change (is_slash "/") with true. cbv iota.
    now apply clean_loop_plain.
  - destruct p as [|c p1].
    { apply (IH [] out dd). cbn. lia. }
    cbn [length] in Hlen.
    assert (Hcopy : forall q o, length q <= n ->
              path.copy_elem rooted dd (q ++ "/"%char :: name)%list o
              = (path.add_sep rooted (path.copy_elem rooted dd q o) ++ name)%list).
    { induction q as [|c' q IHq]; intros o Hq.
      - cbn [app path.copy_elem]. change (is_slash "/") with true. cbv iota.
        apply (IH [] o dd). cbn. lia.
      - cbn [app path.copy_elem]. destruct (is_slash c').
        + apply (IH (c' :: q) o dd). exact Hq.
        + apply IHq. cbn in Hq. lia. }
    change ((c :: p1) ++ "/"%char :: name)%list
      with (c :: (p1 ++ "/"%char :: name))%list.
    rewrite !clean_loop_cons, at_elem_end_app.
    destruct (is_slash c); [apply IH; lia|].
    destruct (is_dot c && path.at_elem_end p1); [apply IH; lia|].
    destruct p1 as [|c1 p2].
    + cbn [app]. change (is_slash "/") with true.
      replace (is_dot c && is_dot "/" && path.at_elem_end name) with false
        by (change (is_dot "/") with false; now rewrite andb_false_r).
      apply (Hcopy [] _). cbn. lia.
    + change ((c1 :: p2) ++ "/"%char :: name)%list
        with (c1 :: (p2 ++ "/"%char :: name))%list.
      cbv iota. rewrite at_elem_end_app.
      destruct (is_dot c && is_dot c1 && path.at_elem_end p2).
      * apply IH. cbn in Hlen. lia.
      * apply (Hcopy (c1 :: p2)). lia.
Qed.

End Clean.

(** *** What the loop keeps true *)

Lemma back_loop_ge (old : path.lazybuf) (dd w0 : nat) :
  dd <= w0 -> dd <= path.back_loop old dd w0.
Proof.
  induction w0 as [|w IH]; intros H; cbn [path.back_loop]; [exact H|].
  destruct (dd <? S w)%nat eqn:Hlt; cbn [andb]; [|exact H].
  destruct (negb _); [|exact H].
  apply IH. apply Nat.ltb_lt in Hlt. lia.
Qed.

Lemma back_loop_stop (old : path.lazybuf) (dd w0 : nat) :
  let w := path.back_loop old dd w0 in
  w = 0 \/ w <= dd \/ is_slash (path.lb_index old w) = true.
Proof.
  induction w0 as [|w IH]; cbn [path.back_loop]; [now left|].
  destruct (dd <? S w)%nat eqn:Hlt; cbn [andb].
  - destruct (is_slash (path.lb_index old (S w))) eqn:Hs; cbn [negb].
    + right; right. exact Hs.
    + exact IH.
  - right; left. apply Nat.ltb_ge in Hlt. exact Hlt.
Qed.

Lemma first_is_dot_firstn (out : path.lazybuf) (dd w : nat) :
  first_is_dot out = false -> dd <> 1 -> dd <= w ->
  w = 0 \/ w <= dd \/ is_slash (path.lb_index out w) = true ->
  first_is_dot (firstn w out) = false.
Proof.
  intros Hout Hdd Hle Hw.
  destruct out as [|a [|b r]].
  - now rewrite firstn_nil.
  - destruct w as [|w]; [reflexivity|]. cbn. rewrite firstn_nil. exact Hout.
  - destruct w as [|[|w]]; [reflexivity | | exact Hout].
    cbn in *. rewrite andb_true_r.
    destruct Hw as [Hw|[Hw|Hw]]; [discriminate | lia |].
    rewrite Hw, andb_true_r in Hout. exact Hout.
Qed.

Lemma starts_with_slash_firstn (out : path.lazybuf) (w : nat) :
  starts_with_slash out = false ->
  starts_with_slash (firstn w out) = false.
Proof. destruct out, w; cbn; auto. Qed.

Lemma dotdot_elem_inv (rooted : bool) (out : path.lazybuf) (dd : nat) :
  clean_inv rooted out dd ->
  clean_inv rooted (fst (path.dotdot_elem rooted out dd))
            (snd (path.dotdot_elem rooted out dd)).
Proof.
  unfold path.dotdot_elem, path.backtrack, path.lb_w, path.lb_append.
  destruct rooted; cbn [clean_inv negb].
  - intros [Hs ->]. destruct (1 <? length out)%nat eqn:Hlt; cbn [fst snd].
    + split; [|reflexivity]. apply Nat.ltb_lt in Hlt.
      pose proof (back_loop_ge out 1 (length out - 1) ltac:(lia)) as Hge.
      destruct out as [|a r]; [discriminate|].
      destruct (path.back_loop (a :: r) 1 (length (a :: r) - 1)); [lia|].
      exact Hs.
    + split; [exact Hs | reflexivity].
  - intros (Hs & Hd & Hdd). destruct (dd <? length out)%nat eqn:Hlt; cbn [fst snd].
    + apply Nat.ltb_lt in Hlt. split; [|split; [|exact Hdd]].
      * now apply starts_with_slash_firstn.
      * apply (first_is_dot_firstn out dd); [exact Hd | exact Hdd | |].
        -- apply back_loop_ge. lia.
        -- apply back_loop_stop.
    + destruct out as [|a r]; cbn [length Nat.ltb Nat.leb app].
      * repeat split; cbn; lia.
      * change (0 <? S (length r))%nat with true. cbv iota.
        rewrite <- !List.app_assoc. cbn [app]. split; [exact Hs|]. split.
        -- cbn [first_is_dot] in *. now rewrite at_elem_end_app.
        -- rewrite length_app. cbn. lia.
Qed.

Lemma add_elem_inv (rooted : bool) (out : path.lazybuf) (dd : nat) (e : bytes) :
  clean_inv rooted out dd -> real_elem e = true ->
  clean_inv rooted (path.add_sep rooted out ++ e)%list dd.
Proof.
  intros Hinv He. destruct e as [|c rest]; [discriminate|].
  cbn [real_elem existsb] in He. apply andb_prop in He as [Hsl Hdot].
  apply negb_true_iff in Hsl, Hdot. apply orb_false_elim in Hsl as [Hc Hrest].
  unfold path.add_sep, path.lb_w, path.lb_append.
  destruct rooted; cbn [clean_inv negb andb orb] in *.
  - destruct Hinv as [Hs ->]. split; [|reflexivity].
    destruct out as [|a r]; [discriminate|].
    destruct (negb _); exact Hs.
  - destruct Hinv as (Hs & Hd & Hdd). destruct out as [|a r].
    + cbn. rewrite Hc. repeat split; [exact Hdot | exact Hdd].
    + cbn [length Nat.eqb negb]. rewrite <- List.app_assoc. cbn [app].
      split; [exact Hs|]. split; [|exact Hdd].
      cbn [first_is_dot] in *. now rewrite at_elem_end_app.
Qed.

Lemma real_elem_snoc (acc : bytes) (c : ascii) :
  acc <> [] -> existsb is_slash acc = false -> is_slash c = false ->
  real_elem (acc ++ [c]) = true.
Proof.
  intros Hne Hacc Hc. destruct acc as [|a rest]; [contradiction|].
  cbn [app real_elem]. apply andb_true_intro. split.
  - apply negb_true_iff.
    change (a :: rest ++ [c])%list with ((a :: rest) ++ [c])%list.
    rewrite existsb_app, Hacc. cbn. now rewrite Hc.
  - apply negb_true_iff. apply andb_false_intro2.
    destruct rest as [|b rest]; cbn; [exact Hc|].
    cbn in Hacc. apply orb_false_elim in Hacc as [_ Hacc].
    apply orb_false_elim in Hacc as [Hb _]. exact Hb.
Qed.

Lemma clean_loop_inv (rooted : bool) (n : nat) :
  forall (p : bytes) (out : path.lazybuf) (dd : nat),
    length p <= n -> clean_inv rooted out dd ->
    exists dd', clean_inv rooted (path.clean_loop rooted p out dd) dd'.
Proof.
  induction n as [|n IH]; intros p out dd Hlen Hinv.
  - destruct p; [|cbn in Hlen; lia]. cbn. eauto.
  - destruct p as [|c p1]; [cbn; eauto|]. cbn [length] in Hlen.
    assert (Hcopy : forall q acc, length q <= n ->
              acc <> [] -> existsb is_slash acc = false ->
              real_elem acc = true \/ path.at_elem_end q = false ->
              exists dd', clean_inv rooted
                (path.copy_elem rooted dd q (path.add_sep rooted out ++ acc)%list)
                dd').
    { induction q as [|c' q IHq]; intros acc Hq Hne Hacc Hreal.
      - cbn. exists dd. apply add_elem_inv; [exact Hinv|].
        destruct Hreal as [H|H]; [exact H | discriminate].
      - cbn [path.copy_elem]. destruct (is_slash c') eqn:Hc'.
        + apply IH; [exact Hq|]. apply add_elem_inv; [exact Hinv|].
          destruct Hreal as [H|H]; [exact H|]. cbn in H. congruence.
        + unfold path.lb_append. rewrite <- List.app_assoc.
          apply IHq.
          * cbn in Hq. lia.
          * destruct acc; discriminate.
          * rewrite existsb_app, Hacc. cbn. now rewrite Hc'.
          * left. now apply real_elem_snoc. }
    rewrite clean_loop_cons.
    destruct (is_slash c) eqn:Hc; [apply IH; [lia | exact Hinv]|].
    destruct (is_dot c && path.at_elem_end p1) eqn:Hdot;
      [apply IH; [lia | exact Hinv]|].
    assert (Helem : exists dd', clean_inv rooted
              (path.copy_elem rooted dd p1
                 (path.lb_append (path.add_sep rooted out) c)) dd').
    { apply (Hcopy p1 [c]); [lia | discriminate | cbn; now rewrite Hc |].
      apply andb_false_elim in Hdot as [Hd|He]; [left | right; exact He].
      cbn. now rewrite Hc, Hd. }
    destruct p1 as [|c1 p2]; [exact Helem|].
    destruct (is_dot c && is_dot c1 && path.at_elem_end p2); [|exact Helem].
    apply IH; [cbn in Hlen; lia|]. now apply dotdot_elem_inv.
Qed.

(** *** Joining a directory and a file name *)

Lemma clean_bytes_plain (name : bytes) :
  plain_elem name = true -> path.clean_bytes name = name.
Proof.
  intros Hn. destruct name as [|c rest] eqn:E; [discriminate|].
  unfold path.clean_bytes.
  assert (Hc : is_slash c = false).
  { cbn in Hn. apply andb_prop in Hn as [Hn _]. apply andb_prop in Hn as [Hn _].
    now apply negb_true_iff in Hn. }
  rewrite Hc, (clean_loop_plain false (c :: rest) [] 0 Hn). reflexivity.
Qed.

(** [Clean] of a directory followed by a slash and a plain file name
    is the file name under [Clean] of the directory. *)
Lemma clean_bytes_join (D name : bytes) :
  plain_elem name = true -> D <> [] ->
  path.clean_bytes (D ++ "/"%char :: name)%list
  = under_bytes (path.clean_bytes D) name.
Proof.
  intros Hn HD. destruct D as [|c0 p1]; [contradiction|].
  assert (Hne : forall o : bytes, (length (o ++ name) =? 0)%nat = false).
  { intros o. rewrite length_app. destruct name; [discriminate|].
    cbn. rewrite Nat.add_succ_r. reflexivity. }
  change ((c0 :: p1) ++ "/"%char :: name)%list
    with (c0 :: (p1 ++ "/"%char :: name))%list.
  unfold path.clean_bytes, path.lb_w. destruct (is_slash c0) eqn:Hc0.
  - rewrite (clean_loop_join true name Hn (length p1)) by lia.
    rewrite Hne.
    destruct (clean_loop_inv true (length p1) p1 ["/"%char] 1 ltac:(lia))
      as [dd' [Hs _]]; [split; reflexivity|].
    destruct (path.clean_loop true p1 ["/"%char] 1) as [|a [|b r]];
      [discriminate| |].
    + cbn in Hs. cbn. rewrite Hs.
      replace (is_dot a) with false; [reflexivity|].
      apply Ascii.eqb_eq in Hs. now subst a.
    + cbn. now rewrite <- !List.app_assoc.
  - change (c0 :: (p1 ++ "/"%char :: name))%list
      with ((c0 :: p1) ++ "/"%char :: name)%list.
    rewrite (clean_loop_join false name Hn (length (c0 :: p1))) by lia.
    rewrite Hne.
    destruct (clean_loop_inv false (length (c0 :: p1)) (c0 :: p1) [] 0
                ltac:(lia)) as [dd' (Hs & Hd & _)];
      [repeat split; cbn; lia|].
    destruct (path.clean_loop false (c0 :: p1) [] 0) as [|a [|b r]].
    + reflexivity.
    + cbn in Hs, Hd. rewrite andb_true_r in Hd. cbn. now rewrite Hs, Hd.
    + cbn. now rewrite <- !List.app_assoc.
Qed.

Lemma of_bytes_under (C name : bytes) :
  of_bytes (under_bytes C name) = under (of_bytes C) (of_bytes name).
Proof.
  unfold under. destruct C as [|c [|b r]].
  - reflexivity.
  - cbn [under_bytes of_bytes string_of_list_ascii String.eqb].
    unfold is_dot, is_slash.
    destruct (Ascii.eqb c "."); [reflexivity|].
    destruct (Ascii.eqb c "/") eqn:Hs.
    + apply Ascii.eqb_eq in Hs. subst c. reflexivity.
    + now rewrite of_bytes_app.
  - cbn [under_bytes]. rewrite of_bytes_app.
    cbn [of_bytes string_of_list_ascii String.eqb].
    destruct (Ascii.eqb c "."), (Ascii.eqb c "/"); reflexivity.
Qed.

Lemma Join_under (D name : string) :
  plain_elem (to_bytes name) = true ->
  path.Join [D; name] = under (path.Clean D) name.
Proof.
  intros Hn.
  assert (Hne : String.eqb name "" = false)
    by (destruct name; [discriminate | reflexivity]).
  destruct D as [|c d].
  - cbn [path.Join String.eqb path.join_slash]. rewrite Hne.
    unfold path.Clean. rewrite (clean_bytes_plain _ Hn). apply of_to_bytes.
  - cbn [path.Join String.eqb path.join_slash]. unfold path.Clean.
    rewrite to_bytes_app.
    change (to_bytes ("/" ++ name)) with ("/"%char :: to_bytes name).
    rewrite clean_bytes_join by (exact Hn || discriminate).
    now rewrite of_bytes_under, of_to_bytes.
Qed.

Lemma under_clean (D name : string) :
  D <> "." -> D <> "/" -> under D name = D ++ "/" ++ name.
Proof.
  intros Hdot Hroot. unfold under.
  destruct (String.eqb D ".") eqn:E1; [apply String.eqb_eq in E1; contradiction|].
  destruct (String.eqb D "/") eqn:E2; [apply String.eqb_eq in E2; contradiction|].
  reflexivity.
Qed.

(** X17.  For every base directory [D], [SetDatadir] sets the pid
    file, the error log and the listen specification to the file
    names phpfpm.pid, phpfpm.error_log and phpfpm.sock under
    [path.Clean D], the cleaned form of [D] (the bare file name when
    that is ".", no second slash when it is "/"), and changes nothing
    else; when [D] is in cleaned form already, and is not "." or "/",
    the three are [D], a slash and the file name, byte for byte. *)
Theorem SetDatadir_joins_under_cleaned_dir (proc : Process) (D : string) :
  let proc' := SetDatadir proc D in
  PidFile proc' = under (path.Clean D) "phpfpm.pid"
  /\ ErrorLog proc' = under (path.Clean D) "phpfpm.error_log"
  /\ Listen proc' = under (path.Clean D) "phpfpm.sock"
  /\ Exec proc' = Exec proc
  /\ ConfigFile proc' = ConfigFile proc
  /\ cmd proc' = cmd proc
  /\ (path.Clean D = D -> D <> "." -> D <> "/" ->
      PidFile proc' = D ++ "/phpfpm.pid"
      /\ ErrorLog proc' = D ++ "/phpfpm.error_log"
      /\ Listen proc' = D ++ "/phpfpm.sock").
Proof.
  cbn zeta. unfold SetDatadir.
  cbn [PidFile ErrorLog Listen Exec ConfigFile cmd].
  rewrite !Join_under by reflexivity.
  repeat (split; [reflexivity|]).
  intros Hclean Hdot Hroot. rewrite Hclean.
  rewrite !(under_clean D _ Hdot Hroot). repeat split.
Qed.

Lemma SetDatadir_witness :
  PidFile proc_var = "/tmp/var/phpfpm.pid"
  /\ ErrorLog proc_var = "/tmp/var/phpfpm.error_log"
  /\ Listen proc_var = "/tmp/var/phpfpm.sock".
Proof.
  destruct (SetDatadir_joins_under_cleaned_dir
              (NewProcess "/usr/sbin/php5-fpm") "/tmp/var")
    as (_ & _ & _ & _ & _ & _ & H).
  apply H; [reflexivity | discriminate | discriminate].
Defined.

(** Under the base directory ./var the files are not the directory
    as given, a slash and the file name. *)
Lemma SetDatadir_dot_slash_prefix : ~ datadir_claim "./var".
Proof.
  intros H. destruct (H (NewProcess "/usr/sbin/php5-fpm")) as [Hpid _].
  vm_compute in Hpid. discriminate Hpid.
Qed.

(** C8.  [SetDatadir] does not do what its own comment says, which is
    to set the three fields to [basepath + "/phpfpm.pid"] and so on:
    for every descriptor, under the base directory ./var it sets them
    to var/phpfpm.pid, var/phpfpm.error_log and var/phpfpm.sock,
    without the leading "./", and under the empty base directory to
    the bare file names, without the slash. *)
Theorem SetDatadir_is_not_concatenation (proc : Process) :
  PidFile (SetDatadir proc "./var") = "var/phpfpm.pid"
  /\ ErrorLog (SetDatadir proc "./var") = "var/phpfpm.error_log"
  /\ Listen (SetDatadir proc "./var") = "var/phpfpm.sock"
  /\ PidFile (SetDatadir proc "./var") <> "./var" ++ "/phpfpm.pid"
  /\ ErrorLog (SetDatadir proc "./var") <> "./var" ++ "/phpfpm.error_log"
  /\ Listen (SetDatadir proc "./var") <> "./var" ++ "/phpfpm.sock"
  /\ PidFile (SetDatadir proc "") = "phpfpm.pid"
  /\ ErrorLog (SetDatadir proc "") = "phpfpm.error_log"
  /\ Listen (SetDatadir proc "") = "phpfpm.sock"
  /\ PidFile (SetDatadir proc "") <> "" ++ "/phpfpm.pid"
  /\ ErrorLog (SetDatadir proc "") <> "" ++ "/phpfpm.error_log"
  /\ Listen (SetDatadir proc "") <> "" ++ "/phpfpm.sock".
Proof. repeat split; discriminate. Qed.

Example SetDatadir_dot_slash_fields :
  let proc' := SetDatadir (NewProcess "/usr/sbin/php5-fpm") "./var" in
  PidFile proc' = "var/phpfpm.pid"
  /\ ErrorLog proc' = "var/phpfpm.error_log"
  /\ Listen proc' = "var/phpfpm.sock".
Proof. repeat split. Qed.

Example SetDatadir_empty_prefix :
  PidFile (SetDatadir (NewProcess "/usr/sbin/php5-fpm") "") = "phpfpm.pid".
Proof. reflexivity. Qed.

Example SetDatadir_trailing_slash :
  PidFile (SetDatadir (NewProcess "/usr/sbin/php5-fpm") "/tmp/var/")
  = "/tmp/var/phpfpm.pid".
Proof. reflexivity. Qed.

Example SetDatadir_root :
  PidFile (SetDatadir (NewProcess "/usr/sbin/php5-fpm") "/") = "/phpfpm.pid".
Proof. reflexivity. Qed.

Example trim_slashes_ex : trim_slashes "/tmp/var//" = "/tmp/var".
Proof. reflexivity. Qed.

(** * Further properties of the package *)

(** ** The goroutine of [waitConn], in any run *)

Lemma dial_done_ge (env : Env) (n : nat) :
  forall (k : nat) (t : Z),
    (t + Z.of_nat n * dial_pause <= dial_done env k n t)%Z.
Proof.
  induction n as [|n IH]; intros k t; cbn [dial_done].
  - lia.
  - specialize (IH (S k) (t + Z.of_N (env_dial_cost env k) + dial_pause)%Z).
    lia.
Qed.

(** A run that ended did so at the first attempt that succeeded, with
    a receiver waiting when that attempt returned. *)
Lemma waitConn_loop_exited env listen recv (fuel : nat) :
  forall (k : nat) (t : Z) evs t',
    waitConn_loop env listen recv fuel k t = (evs, GExited, t') ->
    exists n c,
      n < fuel
      /\ (forall i, i < n -> env_dial env (k + i) "unix" listen = None)
      /\ env_dial env (k + n) "unix" listen = Some c
      /\ t' = dial_done env k n t
      /\ recv t' = true.
Proof.
  induction fuel as [|fuel IH]; intros k t evs t' H; [discriminate H|].
  cbn [waitConn_loop] in H.
  destruct (env_dial env k "unix" listen) as [conn|] eqn:Hd.
  - destruct (recv (t + Z.of_N (env_dial_cost env k))%Z) eqn:Hr;
      [|discriminate H].
    injection H as _ <-. exists 0, conn. rewrite Nat.add_0_r.
    repeat split; [lia | intros i Hi; lia | exact Hd | exact Hr].
  - destruct (waitConn_loop env listen recv fuel (S k) _)
      as [[evs1 st1] t1] eqn:E.
    injection H as _ -> <-.
    destruct (IH _ _ _ _ E) as (n & c & Hn & Hfail & Hok & Ht & Hr).
    exists (S n), c. repeat split.
    + lia.
    + intros [|i] Hi; [now rewrite Nat.add_0_r|].
      replace (k + S i) with (S k + i) by lia. apply Hfail. lia.
    + replace (k + S n) with (S k + n) by lia. exact Hok.
    + exact Ht.
    + exact Hr.
Qed.

(** Every event of a run starts at or after the start of the run. *)
Lemma waitConn_loop_times env listen recv (fuel : nat) :
  forall (k : nat) (t : Z) ts ev,
    In (ts, ev) (fst (fst (waitConn_loop env listen recv fuel k t))) ->
    (t <= ts)%Z.
Proof.
  induction fuel as [|fuel IH]; intros k t ts ev; cbn [waitConn_loop].
  - cbn. tauto.
  - assert (Hp : (0 < dial_pause)%Z) by reflexivity.
    destruct (env_dial env k "unix" listen) as [conn|].
    + destruct (recv _); cbn; intros H;
        repeat (destruct H as [H|H]; [inversion H; subst; lia|]);
        contradiction.
    + specialize (IH (S k)
                     (t + Z.of_N (env_dial_cost env k) + dial_pause)%Z ts ev).
      destruct (waitConn_loop env listen recv fuel (S k) _) as [[evs st] t'].
      cbn in *. intros [H|[H|H]];
        [inversion H; lia | inversion H; lia | specialize (IH H); lia].
Qed.

Lemma until_late (d t : Z) (evs : list (Z * Event)) :
  (forall ts ev, In (ts, ev) evs -> (t <= ts)%Z) -> (d < t)%Z ->
  until d evs = [].
Proof.
  intros Hts Hd. unfold until.
  induction evs as [|[ts ev] evs IH]; [reflexivity|]. cbn.
  replace (ts <=? d)%Z with false.
  - apply IH. intros ts' ev' Hin. apply (Hts ts' ev'). now right.
  - symmetry. apply Z.leb_gt. specialize (Hts ts ev (or_introl eq_refl)). lia.
Qed.

(** X9.  In every run of the loop with the [select] of [Start] as
    the receiver, however long the run is watched, there is at most
    one send: exactly one when the goroutine has ended, and then it is
    the last event; none while the goroutine is in the loop or waits
    at its send. *)
Theorem waitConn_sends_at_most_once
    (env : Env) (listen : string) (fuel k : nat) (t : Z) :
  let '(evs, st, _) :=
    waitConn_loop env listen (select_receiving env) fuel k t in
  length (List.filter is_send (map snd evs))
  = match st with GExited => 1 | _ => 0 end
  /\ (st = GExited ->
      exists pre c, map snd evs = (pre ++ [EvSend c])%list
                    /\ existsb is_send pre = false).
Proof.
  pose proof (waitConn_loop_shape env listen (select_receiving env) fuel k t)
    as H.
  destruct (waitConn_loop env listen (select_receiving env) fuel k t)
    as [[evs st] t'].
  destruct st as [k'|c|].
  - destruct H as [Ha _]. rewrite (filter_send_attempts _ Ha).
    split; [reflexivity | discriminate].
  - destruct H as [Ha _]. rewrite (filter_send_attempts _ Ha).
    split; [reflexivity | discriminate].
  - destruct H as [(pre & c & Hev & Hpre) _]. rewrite Hev. split.
    + rewrite List.filter_app, (filter_send_attempts _ Hpre). reflexivity.
    + intros _. exists pre, c. split; [reflexivity|].
      apply existsb_false_iff. intros ev Hin.
      rewrite forallb_forall in Hpre. specialize (Hpre ev Hin).
      destruct ev; try discriminate; reflexivity.
Qed.

Lemma dials_paced env listen recv (fuel : nat) :
  forall (k : nat) (t d : Z),
    (t <= d)%Z ->
    (Z.of_nat (length (List.filter is_dial
        (until d (fst (fst (waitConn_loop env listen recv fuel k t))))))
     * dial_pause <= d - t + dial_pause)%Z.
Proof.
  assert (Hp : (0 < dial_pause)%Z) by reflexivity.
  induction fuel as [|fuel IH]; intros k t d Htd; cbn [waitConn_loop].
  - cbn. lia.
  - destruct (env_dial env k "unix" listen) as [conn|].
    + destruct (recv _); unfold until; cbn;
        replace (t <=? d)%Z with true by (symmetry; apply Z.leb_le; lia);
        cbn; repeat (destruct (_ <=? d)%Z; cbn); lia.
    + pose proof (waitConn_loop_times env listen recv fuel (S k)
                    (t + Z.of_N (env_dial_cost env k) + dial_pause)%Z) as Hts.
      specialize (IH (S k) (t + Z.of_N (env_dial_cost env k) + dial_pause)%Z d).
      destruct (waitConn_loop env listen recv fuel (S k) _) as [[evs st] t'].
      cbn [fst] in *.
      assert (Hrest : (Z.of_nat (length (List.filter is_dial (until d evs)))
                       * dial_pause <= d - t)%Z).
      { destruct (Z_le_gt_dec
                    (t + Z.of_N (env_dial_cost env k) + dial_pause) d) as [Hle|Hgt].
        - specialize (IH Hle). lia.
        - rewrite (until_late d _ evs Hts) by lia. cbn. lia. }
      unfold until in *. cbn.
      replace (t <=? d)%Z with true by (symmetry; apply Z.leb_le; lia).
      cbn. destruct (_ <=? d)%Z; cbn; lia.
Qed.

(** X10.  The loop does not spin: its attempts start at least two
    milliseconds apart, so of the attempts of a run, however long it
    is watched, at most [(d - t) / 2ms + 1] start by time [d], and at
    most 2001 start before the four seconds of [Start] are over. *)
Theorem waitConn_attempts_are_paced
    (env : Env) (listen : string) (recv : Z -> bool) (fuel k : nat) (t d : Z) :
  (t <= d)%Z ->
  (Z.of_nat (length (List.filter is_dial
      (until d (fst (fst (waitConn_loop env listen recv fuel k t))))))
   * 2000000 <= d - t + 2000000)%Z
  /\ length (List.filter is_dial
       (until ready_timeout
              (fst (fst (waitConn_loop env listen recv fuel k 0)))))
     <= 2001.
Proof.
  intros Htd. split.
  - apply (dials_paced env listen recv fuel k t d Htd).
  - pose proof (dials_paced env listen recv fuel k 0 ready_timeout
                  ltac:(discriminate)) as H.
    change dial_pause with 2000000%Z in H.
    change ready_timeout with 4000000000%Z in *.
    apply Nat2Z.inj_le. lia.
Qed.

Lemma waitConn_attempts_paced_witness :
  length (List.filter is_dial
    (until ready_timeout
           (fst (fst (waitConn_loop env_deaf "/tmp/var/phpfpm.sock"
                                    (fun _ => false) 5 0 0)))))
  <= 2001.
Proof.
  apply (waitConn_attempts_are_paced env_deaf "/tmp/var/phpfpm.sock"
           (fun _ => false) 5 0 0%Z 0%Z).
  lia.
Defined.

(** X11.  While no attempt succeeds the loop has no way out: each
    iteration makes one attempt and one pause, and after any number of
    iterations the goroutine is still in the loop, having sent
    nothing.  Nothing ties it to the timeout of [Start]. *)
Theorem waitConn_never_gives_up
    (env : Env) (listen : string) (recv : Z -> bool) (k : nat) (t : Z) :
  (forall i, env_dial env i "unix" listen = None) ->
  forall fuel,
    let '(evs, st, _) := waitConn_loop env listen recv fuel k t in
    st = GRunning (k + fuel)
    /\ length (List.filter is_dial (map snd evs)) = fuel
    /\ length evs = 2 * fuel
    /\ existsb is_send (map snd evs) = false.
Proof.
  intros Hfail fuel. revert k t.
  induction fuel as [|fuel IH]; intros k t; cbn [waitConn_loop].
  - cbn. repeat split. f_equal. lia.
  - rewrite Hfail.
    specialize (IH (S k) (t + Z.of_N (env_dial_cost env k) + dial_pause)%Z).
    destruct (waitConn_loop env listen recv fuel (S k) _) as [[evs st] t'].
    destruct IH as (-> & Hd & Hl & Hs). cbn. rewrite Hd, Hl.
    repeat split; [f_equal; lia | lia | exact Hs].
Qed.

Lemma waitConn_never_gives_up_witness :
  let '(evs, st, _) :=
    waitConn_loop env_deaf "/tmp/var/phpfpm.sock"
                  (select_receiving env_deaf) 3000 0 0 in
  st = GRunning (0 + 3000)
  /\ length (List.filter is_dial (map snd evs)) = 3000
  /\ length evs = 2 * 3000
  /\ existsb is_send (map snd evs) = false.
Proof.
  apply (waitConn_never_gives_up env_deaf "/tmp/var/phpfpm.sock"
           (select_receiving env_deaf) 0 0%Z).
  reflexivity.
Defined.

(** ** [Start], in any environment *)

Lemma select_receiving_le (env : Env) (t : Z) :
  select_receiving env t = true -> (t <= ready_timeout)%Z.
Proof.
  unfold select_receiving. intros H. apply orb_prop in H as [H|H].
  - apply Z.ltb_lt in H. lia.
  - apply andb_prop in H as [H _]. apply Z.eqb_eq in H. lia.
Qed.

Lemma select_receiving_lt (env : Env) (t : Z) :
  (t < ready_timeout)%Z -> select_receiving env t = true.
Proof.
  intros H. unfold select_receiving.
  apply orb_true_intro. left. now apply Z.ltb_lt.
Qed.

Lemma probe_fuel_val : Z.of_nat probe_fuel = 2001%Z.
Proof. reflexivity. Qed.

(** What every call of [Start] does to the files, the processes and
    the events. *)
Lemma Start_world (proc : Process) (env : Env) (w : World) :
  let w' := snd (Start proc env w) in
  w_files w' = w_files w
  /\ w_procs w ⊆ w_procs w'
  /\ exists evs,
       w_trace w' = (w_trace w ++ evs)%list
       /\ existsb is_cleanup evs = false.
Proof.
  cbn zeta.
  destruct (env_stdout_pipe env) as [o|e] eqn:Ho.
  2:{ unfold Start. rewrite Ho. cbn. split; [reflexivity|]. split; [done|].
      exists [EvStdoutPipe]. split; reflexivity. }
  destruct (env_stderr_pipe env) as [s|e] eqn:Hs.
  2:{ unfold Start. rewrite Ho, Hs. cbn. split; [reflexivity|]. split; [done|].
      exists [EvStdoutPipe; EvStderrPipe].
      rewrite <- !List.app_assoc. split; reflexivity. }
  destruct (env_start env) as [pid|e] eqn:Hp.
  2:{ unfold Start. rewrite Ho, Hs, Hp. cbn. split; [reflexivity|]. split; [done|].
      eexists [EvStdoutPipe; EvStderrPipe; EvSpawn _ _].
      rewrite <- !List.app_assoc. split; reflexivity. }
  rewrite (Start_spawned proc env w o s pid Ho Hs Hp).
  pose proof (waitConn_loop_events env (Listen proc) (select_receiving env)
                probe_fuel 0 0) as Hev.
  destruct (waitConn_loop _ _ _ _ _ _) as [[evs st] t]. cbn [fst snd] in Hev.
  assert (Hsub : w_procs w ⊆ {[pid]} ∪ w_procs w) by apply union_subseteq_r.
  assert (Hclean : forall l, (forall ev, In ev l -> In ev (map snd evs)) ->
            existsb is_cleanup
              ([EvStdoutPipe; EvStderrPipe;
                EvSpawn (Exec proc)
                  [Exec proc; "--fpm-config"; ConfigFile proc; "-F"; "-n"; "-e"];
                EvTimer ready_timeout; EvGo] ++ l)%list = false).
  { intros l Hl. apply existsb_false_iff. intros ev Hin.
    apply in_app_or in Hin. destruct Hin as [Hin|Hin].
    - repeat (destruct Hin as [<-|Hin]; [reflexivity|]). contradiction.
    - apply Hl, Hev in Hin. tauto. }
  assert (Htimeout :
    let w' := elapse (emit (before_select proc w pid)
                           (until ready_timeout evs)) ready_timeout in
    w_files w' = w_files w
    /\ w_procs w ⊆ w_procs w'
    /\ exists evs0,
         w_trace w' = (w_trace w ++ evs0)%list
         /\ existsb is_cleanup evs0 = false).
  { cbn zeta. split; [reflexivity|]. split; [exact Hsub|].
    eexists (_ ++ until ready_timeout evs)%list. split.
    - change (w_trace (elapse (emit (before_select proc w pid)
                                    (until ready_timeout evs)) ready_timeout))
        with (w_trace (before_select proc w pid)
              ++ until ready_timeout evs)%list.
      rewrite before_select_trace. now rewrite <- List.app_assoc.
    - apply Hclean. intros ev. apply until_incl. }
  destruct st as [k'|c|]; [exact Htimeout | exact Htimeout |].
  cbn [snd]. split; [reflexivity|]. split; [exact Hsub|].
  eexists (_ ++ map snd evs)%list. split.
  - change (w_trace (elapse (emit (before_select proc w pid) (map snd evs)) t))
      with (w_trace (before_select proc w pid) ++ map snd evs)%list.
    rewrite before_select_trace. now rewrite <- List.app_assoc.
  - apply Hclean. auto.
Qed.

(** X5.  [Start] never ends, signals or reaps a process and never
    writes a file, on success, on failure and on timeout alike: no
    signal and no wait is among its events, every process that lived
    before the call lives after it, and the files are as before. *)
Theorem Start_never_cleans_up (proc : Process) (env : Env) (w : World) :
  let w' := snd (Start proc env w) in
  w_files w' = w_files w
  /\ w_procs w ⊆ w_procs w'
  /\ exists evs, w_trace w' = (w_trace w ++ evs)%list
                 /\ existsb is_cleanup evs = false.
Proof.
  cbn zeta.
  destruct (Start_world proc env w) as (Hf & Hp & evs & Htr & Hc).
  split; [exact Hf|]. split; [exact Hp|]. exists evs. split; assumption.
Qed.

(** The result of [Start] when the worker accepts attempt [n] before
    the timer fires. *)
Lemma Start_connected proc env w o s pid (n : nat) (c : Conn) :
  env_stdout_pipe env = inl o ->
  env_stderr_pipe env = inl s ->
  env_start env = inl pid ->
  (forall i, i < n -> env_dial env i "unix" (Listen proc) = None) ->
  env_dial env n "unix" (Listen proc) = Some c ->
  (dial_done env 0 n 0 < ready_timeout)%Z ->
  exists pre,
    Start proc env w
    = (started proc pid, mkStartResult (Some o) (Some s) None,
       elapse (emit (before_select proc w pid) (pre ++ [EvSend c]))
              (dial_done env 0 n 0))
    /\ forallb is_attempt pre = true.
Proof.
  intros Ho Hs Hp Hfail Hok Hlt.
  rewrite (Start_spawned proc env w o s pid Ho Hs Hp).
  assert (Hn : n < probe_fuel).
  { pose proof (dial_done_ge env n 0 0) as Hge.
    change dial_pause with 2000000%Z in Hge.
    change ready_timeout with 4000000000%Z in Hlt.
    apply Nat2Z.inj_lt. rewrite probe_fuel_val. lia. }
  destruct (waitConn_loop_success env (Listen proc) (select_receiving env)
              n 0 0%Z c Hfail Hok (select_receiving_lt env _ Hlt)
              probe_fuel Hn) as (pre & Hrun & Hpre).
  rewrite Hrun. exists (map snd pre). split; [|exact Hpre].
  now rewrite map_app.
Qed.

(** X2.  When both streams are captured, the process is spawned and
    the first connection attempt that succeeds returns before the four
    seconds are over, [Start] returns no error and the two streams at
    the very moment that attempt returns; the process lives, its
    handle is in the descriptor, and the last event is the hand-off of
    the connection. *)
Theorem Start_ready_at_first_connection
    (proc : Process) (env : Env) (w : World) (o s : ReadCloser) (pid : Z)
    (n : nat) (c : Conn) :
  env_stdout_pipe env = inl o ->
  env_stderr_pipe env = inl s ->
  env_start env = inl pid ->
  (forall i, i < n -> env_dial env i "unix" (Listen proc) = None) ->
  env_dial env n "unix" (Listen proc) = Some c ->
  (dial_done env 0 n 0 < ready_timeout)%Z ->
  let '(proc', r, w') := Start proc env w in
  r = mkStartResult (Some o) (Some s) None
  /\ w_now w' = (w_now w + dial_done env 0 n 0)%Z
  /\ pid ∈ w_procs w'
  /\ (exists cm, cmd proc' = Some cm
                 /\ exec.Process cm = Some (os.mkProcess pid))
  /\ List.last (w_trace w') EvGo = EvSend c.
Proof.
  intros Ho Hs Hp Hfail Hok Hlt.
  destruct (Start_connected proc env w o s pid n c Ho Hs Hp Hfail Hok Hlt)
    as (pre & -> & _).
  split; [reflexivity|]. split; [reflexivity|]. split.
  { cbn. apply elem_of_union_l, elem_of_singleton. reflexivity. }
  split; [eexists; split; reflexivity|].
  change (w_trace (elapse (emit (before_select proc w pid) (pre ++ [EvSend c]))
                          (dial_done env 0 n 0)))
    with (w_trace (before_select proc w pid) ++ (pre ++ [EvSend c]))%list.
  rewrite List.app_assoc. apply last_last.
Qed.

Lemma Start_ready_witness :
  let '(proc', r, w') := Start proc_var env_ok world0 in
  r = mkStartResult (Some (PipeReader 3)) (Some (PipeReader 4)) None
  /\ w_now w' = (w_now world0 + dial_done env_ok 0 2 0)%Z
  /\ 4242%Z ∈ w_procs w'
  /\ (exists cm, cmd proc' = Some cm
                 /\ exec.Process cm = Some (os.mkProcess 4242))
  /\ List.last (w_trace w') EvGo = EvSend (NetConn 5).
Proof.
  apply (Start_ready_at_first_connection
           proc_var env_ok world0 (PipeReader 3) (PipeReader 4) 4242%Z
           2 (NetConn 5));
    try reflexivity.
  intros [|[|i]] Hi; [reflexivity | reflexivity | lia].
Defined.

(** X3.  [Start] reports success only for a worker that was reached:
    when it returns no error, both streams were captured and are
    returned, the process was spawned, and some attempt on the unix
    transport to the listen string succeeded, after failures only, and
    returned no later than four seconds after the wait began; that is
    when [Start] returns. *)
Theorem Start_success_means_connected
    (proc : Process) (env : Env) (w : World) :
  let '(proc', r, w') := Start proc env w in
  err r = None ->
  exists o s pid n c,
    env_stdout_pipe env = inl o
    /\ env_stderr_pipe env = inl s
    /\ env_start env = inl pid
    /\ stdout r = Some o /\ stderr r = Some s
    /\ (forall i, i < n -> env_dial env i "unix" (Listen proc) = None)
    /\ env_dial env n "unix" (Listen proc) = Some c
    /\ (dial_done env 0 n 0 <= 4000000000)%Z
    /\ w_now w' = (w_now w + dial_done env 0 n 0)%Z.
Proof.
  destruct (env_stdout_pipe env) as [o|e] eqn:Ho.
  2:{ unfold Start. rewrite Ho. cbn. discriminate. }
  destruct (env_stderr_pipe env) as [s|e] eqn:Hs.
  2:{ unfold Start. rewrite Ho, Hs. cbn. discriminate. }
  destruct (env_start env) as [pid|e] eqn:Hp.
  2:{ unfold Start. rewrite Ho, Hs, Hp. cbn. discriminate. }
  rewrite (Start_spawned proc env w o s pid Ho Hs Hp).
  pose proof (waitConn_loop_exited env (Listen proc) (select_receiving env)
                probe_fuel 0 0) as Hex.
  destruct (waitConn_loop _ _ _ _ _ _) as [[evs st] t].
  destruct st as [k'|c|]; [cbn; discriminate | cbn; discriminate |].
  intros _. destruct (Hex evs t eq_refl) as (n & c & _ & Hfail & Hok & Ht & Hr).
  exists o, s, pid, n, c. subst t.
  repeat split; try reflexivity; try assumption.
  apply (select_receiving_le env) in Hr. exact Hr.
Qed.

Lemma Start_success_witness :
  exists o s pid n c,
    env_stdout_pipe env_ok = inl o
    /\ env_stderr_pipe env_ok = inl s
    /\ env_start env_ok = inl pid
    /\ stdout (snd (fst (Start proc_var env_ok world0))) = Some o
    /\ stderr (snd (fst (Start proc_var env_ok world0))) = Some s
    /\ (forall i, i < n -> env_dial env_ok i "unix" (Listen proc_var) = None)
    /\ env_dial env_ok n "unix" (Listen proc_var) = Some c
    /\ (dial_done env_ok 0 n 0 <= 4000000000)%Z
    /\ w_now (snd (Start proc_var env_ok world0))
       = (w_now world0 + dial_done env_ok 0 n 0)%Z.
Proof.
  pose proof (Start_success_means_connected proc_var env_ok world0) as H.
  destruct (Start proc_var env_ok world0) as [[p' r] w'] eqn:E.
  apply H. vm_compute in E. injection E as _ <- _. reflexivity.
Defined.

(** ** The handle of the process *)

(** X6.  [Start] puts a fresh command into the descriptor before it
    does anything else.  So when it fails to capture a stream or to
    spawn, the descriptor is left with a command without a process,
    whatever it held before, and [Stop] and [Wait] on it panic on the
    nil process instead of returning an error. *)
Theorem Stop_after_failed_Start_panics
    (proc : Process) (env : Env) (w : World) (e : error) :
  env_stdout_pipe env = inr e
  \/ (exists o, env_stdout_pipe env = inl o /\ env_stderr_pipe env = inr e)
  \/ (exists o s, env_stdout_pipe env = inl o /\ env_stderr_pipe env = inl s
                  /\ env_start env = inr e) ->
  let proc' := fst (fst (Start proc env w)) in
  cmd proc' = Some (exec.mkCmd (Exec proc) (fpm_args (Exec proc) (ConfigFile proc))
                               None)
  /\ forall env2 w2,
       Stop proc' env2 w2 = (Panicked NilDereference, w2)
       /\ Wait proc' env2 w2 = (Panicked NilDereference, w2).
Proof.
  intros H.
  assert (Hcmd : cmd (fst (fst (Start proc env w)))
                 = Some (exec.mkCmd (Exec proc)
                           (fpm_args (Exec proc) (ConfigFile proc)) None)).
  { destruct H as [Ho | [(o & Ho & Hs) | (o & s & Ho & Hs & Hp)]]; unfold Start.
    - now rewrite Ho.
    - now rewrite Ho, Hs.
    - now rewrite Ho, Hs, Hp. }
  cbn zeta. split; [exact Hcmd|]. intros env2 w2.
  unfold Stop, Wait. rewrite Hcmd. split; reflexivity.
Qed.

Lemma Stop_after_failed_Start_witness :
  Stop proc_running env_ok world_running
  = (Returned None, emit world_running [EvSignal 4242 os.SIGINT])
  /\ Stop (fst (fst (Start proc_running env_broken world_running)))
          env_ok world_running
     = (Panicked NilDereference, world_running).
Proof.
  split; [reflexivity|].
  destruct (Stop_after_failed_Start_panics
              proc_running env_broken world_running
              (Err "too many open files") (or_introl eq_refl)) as [_ H].
  apply H.
Defined.

Lemma Signal_live (pid : Z) (sig : os.Signal) (env : Env) (w : World) :
  pid ∈ w_procs w ->
  Signal pid sig env w = (env_signal env pid sig, emit w [EvSignal pid sig]).
Proof.
  intros H. unfold Signal.
  destruct (decide (pid ∈ w_procs w)); [reflexivity | contradiction].
Qed.

Lemma Signal_reaped (pid : Z) (sig : os.Signal) (env : Env) (w : World) :
  pid ∉ w_procs w ->
  Signal pid sig env w = (Some (Err "os: process already finished"), w).
Proof.
  intros H. unfold Signal.
  destruct (decide (pid ∈ w_procs w)); [contradiction | reflexivity].
Qed.

(** X8.  [Wait] reaps: once it has returned the state of the process,
    the process is gone.  A [Stop] after it sends no signal and
    returns the error "os: process already finished", and a second
    [Wait] returns no state and the error "wait: no child
    processes". *)
Theorem Stop_after_Wait_is_refused
    (proc : Process) (env : Env) (w : World) (cm : exec.Cmd) (pid : Z) :
  cmd proc = Some cm ->
  exec.Process cm = Some (os.mkProcess pid) ->
  pid ∈ w_procs w ->
  let '(r, w') := Wait proc env w in
  r = Returned (Some (env_wait env pid), None)
  /\ w_trace w' = (w_trace w ++ [EvWait pid])%list
  /\ w_procs w' = (w_procs w ∖ {[pid]})
  /\ Stop proc env w'
     = (Returned (Some (Err "os: process already finished")), w')
  /\ fst (Wait proc env w')
     = Returned (None, Some (Err "wait: no child processes"))
  /\ w_procs (snd (Wait proc env w')) = w_procs w'.
Proof.
  intros Hc Hp Hin. unfold Wait, Stop. rewrite Hc, Hp. cbn [os.Pid].
  destruct (decide (pid ∈ w_procs w)) as [_|Hn]; [|contradiction].
  assert (Hgone : pid ∉ w_procs w ∖ {[pid]}).
  { apply not_elem_of_difference. right. apply elem_of_singleton. reflexivity. }
  split; [reflexivity|]. split; [reflexivity|]. split; [reflexivity|].
  cbn [w_procs reaped elapse emit].
  rewrite Signal_reaped by exact Hgone.
  destruct (decide (pid ∈ w_procs w ∖ {[pid]})) as [Hy|_]; [contradiction|].
  repeat split.
Qed.

Lemma Stop_after_Wait_witness :
  let '(r, w') := Wait proc_running env_ok world_running in
  r = Returned (Some (os.mkProcessState 4242 0), None)
  /\ w_trace w' = (w_trace world_running ++ [EvWait 4242])%list
  /\ w_procs w' = (w_procs world_running ∖ {[4242%Z]})
  /\ Stop proc_running env_ok w'
     = (Returned (Some (Err "os: process already finished")), w')
  /\ fst (Wait proc_running env_ok w')
     = Returned (None, Some (Err "wait: no child processes"))
  /\ w_procs (snd (Wait proc_running env_ok w')) = w_procs w'.
Proof.
  pose proof (Stop_after_Wait_is_refused proc_running env_ok world_running
                (exec.mkCmd "/usr/sbin/php5-fpm" ["/usr/sbin/php5-fpm"]
                            (Some (os.mkProcess 4242)))
                4242%Z eq_refl eq_refl) as H.
  destruct (Wait proc_running env_ok world_running) as [r w'].
  apply H. cbn. apply elem_of_singleton. reflexivity.
Defined.



(** ** From the descriptor to the command line and the file *)

Lemma SaveConfig_proc (proc : Process) (path : string) (env : Env) (w : World) :
  fst (SaveConfig proc path env w)
  = mkProc (Exec proc) path (Listen proc) (PidFile proc) (ErrorLog proc)
           (cmd proc).
Proof. unfold SaveConfig. now destruct (SaveTo _ _ _ _). Qed.

(** X1.  A descriptor made by [NewProcess], filled by [SetDatadir] and
    saved by [SaveConfig] is launched by [Start] as the executable
    given to [NewProcess], with the arguments --fpm-config, the path
    given to [SaveConfig], -F, -n and -e, in this order; the process
    is spawned once, right after the two pipes are made. *)
Theorem Start_launches_saved_config
    (phpFpm D path : string) (envS : Env) (wS : World)
    (env : Env) (w : World) (o s : ReadCloser) :
  env_stdout_pipe env = inl o ->
  env_stderr_pipe env = inl s ->
  let proc := fst (SaveConfig (SetDatadir (NewProcess phpFpm) D) path envS wS) in
  let w' := snd (Start proc env w) in
  exists rest,
    w_trace w'
    = (w_trace w
       ++ [EvStdoutPipe; EvStderrPipe;
           EvSpawn phpFpm [phpFpm; "--fpm-config"; path; "-F"; "-n"; "-e"]]
       ++ rest)%list
    /\ existsb is_spawn rest = false.
Proof.
  intros Ho Hs. cbn zeta. rewrite SaveConfig_proc.
  set (proc := mkProc _ _ _ _ _ _).
  destruct (env_start env) as [pid|e] eqn:Hp.
  - rewrite (Start_spawned proc env w o s pid Ho Hs Hp).
    pose proof (waitConn_loop_events env (Listen proc) (select_receiving env)
                  probe_fuel 0 0) as Hev.
    destruct (waitConn_loop _ _ _ _ _ _) as [[evs st] t]. cbn [fst snd] in Hev.
    assert (Hns : forall l, (forall ev, In ev l -> In ev (map snd evs)) ->
              existsb is_spawn ([EvTimer ready_timeout; EvGo] ++ l)%list = false).
    { intros l Hl. apply existsb_false_iff. intros ev Hin.
      apply in_app_or in Hin. destruct Hin as [Hin|Hin].
      - repeat (destruct Hin as [<-|Hin]; [reflexivity|]). contradiction.
      - apply Hl, Hev in Hin. destruct Hin as [_ Hr].
        destruct ev; try discriminate; reflexivity. }
    destruct st as [k'|c|].
    + exists ([EvTimer ready_timeout; EvGo] ++ until ready_timeout evs)%list.
      split; [|apply Hns; intros ev; apply until_incl].
      change (w_trace (snd (started proc pid,
                mkStartResult (Some o) (Some s) (Some (Err "time out")),
                elapse (emit (before_select proc w pid)
                             (until ready_timeout evs)) ready_timeout)))
        with (w_trace (before_select proc w pid)
              ++ until ready_timeout evs)%list.
      rewrite before_select_trace. now rewrite <- !List.app_assoc.
    + exists ([EvTimer ready_timeout; EvGo] ++ until ready_timeout evs)%list.
      split; [|apply Hns; intros ev; apply until_incl].
      change (w_trace (snd (started proc pid,
                mkStartResult (Some o) (Some s) (Some (Err "time out")),
                elapse (emit (before_select proc w pid)
                             (until ready_timeout evs)) ready_timeout)))
        with (w_trace (before_select proc w pid)
              ++ until ready_timeout evs)%list.
      rewrite before_select_trace. now rewrite <- !List.app_assoc.
    + exists ([EvTimer ready_timeout; EvGo] ++ map snd evs)%list.
      split; [|apply Hns; auto].
      change (w_trace (snd (started proc pid,
                mkStartResult (Some o) (Some s) None,
                elapse (emit (before_select proc w pid) (map snd evs)) t)))
        with (w_trace (before_select proc w pid) ++ map snd evs)%list.
      rewrite before_select_trace. now rewrite <- !List.app_assoc.
  - unfold Start. rewrite Ho, Hs, Hp. cbn. exists [].
    rewrite <- !List.app_assoc. split; reflexivity.
Qed.

Lemma Start_launches_witness :
  exists rest,
    w_trace (snd (Start
       (fst (SaveConfig (SetDatadir (NewProcess "/usr/sbin/php5-fpm") "/tmp/var")
                        "/tmp/etc/fpm.conf" env_ok world0))
       env_ok world0))
    = (w_trace world0
       ++ [EvStdoutPipe; EvStderrPipe;
           EvSpawn "/usr/sbin/php5-fpm"
             ["/usr/sbin/php5-fpm"; "--fpm-config"; "/tmp/etc/fpm.conf";
              "-F"; "-n"; "-e"]]
       ++ rest)%list
    /\ existsb is_spawn rest = false.
Proof.
  apply (Start_launches_saved_config
           "/usr/sbin/php5-fpm" "/tmp/var" "/tmp/etc/fpm.conf" env_ok world0
           env_ok world0 (PipeReader 3) (PipeReader 4));
    reflexivity.
Defined.

(** ** Base directories *)

(** A slash at the end of the input changes nothing. *)
Lemma clean_loop_trailing_slash (rooted : bool) (n : nat) :
  forall (p : bytes) (out : path.lazybuf) (dd : nat),
    length p <= n ->
    path.clean_loop rooted (p ++ ["/"%char])%list out dd
    = path.clean_loop rooted p out dd.
Proof.
  induction n as [|n IH]; intros p out dd Hlen.
  - destruct p; [reflexivity | cbn in Hlen; lia].
  - destruct p as [|c p1]; [reflexivity|]. cbn [length] in Hlen.
    assert (Hcopy : forall q o, length q <= n ->
              path.copy_elem rooted dd (q ++ ["/"%char])%list o
              = path.copy_elem rooted dd q o).
    { induction q as [|c' q IHq]; intros o Hq; [reflexivity|].
      cbn [app path.copy_elem]. destruct (is_slash c').
      - apply (IH (c' :: q) o dd). exact Hq.
      - apply IHq. cbn in Hq. lia. }
    change ((c :: p1) ++ ["/"%char])%list with (c :: (p1 ++ ["/"%char]))%list.
    rewrite !clean_loop_cons, at_elem_end_app.
    destruct (is_slash c); [apply IH; lia|].
    destruct (is_dot c && path.at_elem_end p1); [apply IH; lia|].
    destruct p1 as [|c1 p2].
    + cbn [app]. change (is_dot "/") with false.
      rewrite andb_false_r. cbv iota. cbn [andb]. reflexivity.
    + change ((c1 :: p2) ++ ["/"%char])%list
        with (c1 :: (p2 ++ ["/"%char]))%list.
      cbv iota. rewrite at_elem_end_app.
      destruct (is_dot c && is_dot c1 && path.at_elem_end p2).
      * apply IH. cbn in Hlen. lia.
      * apply (Hcopy (c1 :: p2)). lia.
Qed.

Lemma Clean_trailing_slash (D : string) :
  D <> "" -> path.Clean (D ++ "/") = path.Clean D.
Proof.
  intros HD. unfold path.Clean. rewrite to_bytes_app.
  change (to_bytes "/") with ["/"%char]. f_equal.
  destruct D as [|c0 d]; [contradiction|].
  change (to_bytes (String c0 d)) with (c0 :: to_bytes d).
  change ((c0 :: to_bytes d) ++ ["/"%char])%list
    with (c0 :: (to_bytes d ++ ["/"%char]))%list.
  unfold path.clean_bytes. destruct (is_slash c0).
  - now rewrite (clean_loop_trailing_slash true (length (to_bytes d))).
  - change (c0 :: (to_bytes d ++ ["/"%char]))%list
      with ((c0 :: to_bytes d) ++ ["/"%char])%list.
    now rewrite (clean_loop_trailing_slash false (length (c0 :: to_bytes d))).
Qed.

(** X12.  A slash at the end of the base directory makes no
    difference: for every base directory but the empty one,
    [SetDatadir] sets the same three paths with and without it.  (The
    empty one is the exception: it stands for the current directory,
    a lone slash for the root.) *)
Theorem SetDatadir_ignores_trailing_slash (proc : Process) (D : string) :
  D <> "" ->
  SetDatadir proc (D ++ "/") = SetDatadir proc D.
Proof.
  intros HD. unfold SetDatadir.
  rewrite !Join_under by reflexivity.
  now rewrite (Clean_trailing_slash D HD).
Qed.

Lemma SetDatadir_trailing_slash_witness :
  SetDatadir (NewProcess "/usr/sbin/php5-fpm") ("/tmp/var" ++ "/")
  = SetDatadir (NewProcess "/usr/sbin/php5-fpm") "/tmp/var"
  /\ SetDatadir (NewProcess "/usr/sbin/php5-fpm") "/"
     <> SetDatadir (NewProcess "/usr/sbin/php5-fpm") "".
Proof.
  split.
  - apply (SetDatadir_ignores_trailing_slash
             (NewProcess "/usr/sbin/php5-fpm") "/tmp/var").
    discriminate.
  - discriminate.
Defined.

Lemma string_length_app (a b : string) :
  String.length (a ++ b) = String.length a + String.length b.
Proof.
  induction a as [|c a IH]; [reflexivity|].
  change (S (String.length (a ++ b)) = S (String.length a + String.length b)).
  now rewrite IH.
Qed.

Lemma under_not_special (C name : string) :
  plain_elem (to_bytes name) = true ->
  under C name <> "" /\ under C name <> "." /\ under C name <> "/".
Proof.
  intros Hn.
  assert (Hname : name <> "" /\ name <> "." /\ name <> "/").
  { destruct name as [|c rest]; [discriminate Hn|].
    cbn in Hn. apply andb_prop in Hn as [Hn _]. apply andb_prop in Hn as [Hs Hd].
    apply negb_true_iff in Hs, Hd.
    split; [discriminate|]. split; intros E; injection E as -> _.
    - discriminate Hd.
    - discriminate Hs. }
  assert (Hlong : forall X, 2 <= String.length (X ++ "/" ++ name)).
  { intros X. rewrite !string_length_app.
    destruct name; [now destruct Hname|]. cbn. lia. }
  unfold under. destruct (String.eqb C "."); [exact Hname|].
  destruct (String.eqb C "/").
  - specialize (Hlong ""). change ("" ++ "/" ++ name) with ("/" ++ name) in Hlong.
    repeat split; intros E; rewrite E in Hlong; cbn in Hlong; lia.
  - specialize (Hlong C).
    repeat split; intros E; rewrite E in Hlong; cbn in Hlong; lia.
Qed.

(** [Clean] leaves alone a cleaned path with a plain element put
    under it. *)
Lemma Clean_under (C name : string) :
  path.Clean C = C -> plain_elem (to_bytes name) = true ->
  path.Clean (under C name) = under C name.
Proof.
  intros HC Hn. unfold under at 1.
  destruct (String.eqb C ".") eqn:E1.
  { unfold under. rewrite E1. unfold path.Clean.
    rewrite (clean_bytes_plain _ Hn). apply of_to_bytes. }
  destruct (String.eqb C "/") eqn:E2.
  { apply String.eqb_eq in E2. subst C. unfold under. cbn [String.eqb Ascii.eqb].
    change (Ascii.eqb "/" ".") with false. change (Ascii.eqb "/" "/") with true.
    cbv iota. unfold path.Clean.
    change (to_bytes ("/" ++ name)) with ("/"%char :: to_bytes name).
    unfold path.clean_bytes. change (is_slash "/") with true. cbv iota.
    rewrite (clean_loop_plain true _ ["/"%char] 1 Hn).
    change (path.add_sep true ["/"%char] ++ to_bytes name)%list
      with ("/"%char :: to_bytes name).
    cbn [path.lb_w length Nat.eqb].
    change (of_bytes ("/"%char :: to_bytes name))
      with (String "/"%char (of_bytes (to_bytes name))).
    now rewrite of_to_bytes. }
  assert (HCne : C <> "").
  { intros ->. discriminate HC. }
  transitivity (path.Join [C; name]).
  - destruct C as [|c d]; [contradiction | reflexivity].
  - rewrite (Join_under C name Hn), HC. unfold under. now rewrite E1, E2.
Qed.

Lemma var_file_assoc (b x : string) :
  (b ++ "/var") ++ "/" ++ x = b ++ "/var/" ++ x.
Proof.
  induction b as [|c b IH]; [reflexivity|].
  change (String c ((b ++ "/var") ++ "/" ++ x) = String c (b ++ "/var/" ++ x)).
  now rewrite IH.
Qed.

(** X13.  The expectations of [TestProcess_SetPrefix] hold in every
    working directory that is in cleaned form, as [os.Getwd] returns
    it: with [basepath] the join of the working directory and "_test",
    [SetDatadir] of [basepath + "/var"] sets the pid file, the error
    log and the listen specification to [basepath + "/var/phpfpm.pid"]
    and so on, and [Exec] is the path given to [NewProcess]. *)
Theorem TestProcess_SetPrefix_passes (cwd pathToPhpFpm : string) :
  path.Clean cwd = cwd ->
  let basepath := path.Join [cwd; "_test"] in
  let process := SetDatadir (NewProcess pathToPhpFpm) (basepath ++ "/var") in
  PidFile process = basepath ++ "/var/phpfpm.pid"
  /\ ErrorLog process = basepath ++ "/var/phpfpm.error_log"
  /\ Listen process = basepath ++ "/var/phpfpm.sock"
  /\ Exec process = pathToPhpFpm.
Proof.
  intros Hcwd. cbn zeta.
  rewrite (Join_under cwd "_test" eq_refl), Hcwd.
  set (B := under cwd "_test").
  destruct (under_not_special cwd "_test" eq_refl) as (HB0 & HB1 & HB2).
  fold B in HB0, HB1, HB2.
  assert (HcleanB : path.Clean B = B) by (apply Clean_under; [exact Hcwd | reflexivity]).
  assert (HV : path.Clean (B ++ "/var") = B ++ "/var").
  { change (B ++ "/var") with (B ++ "/" ++ "var").
    rewrite <- (under_clean B "var" HB1 HB2).
    apply Clean_under; [exact HcleanB | reflexivity]. }
  assert (HV1 : B ++ "/var" <> "." /\ B ++ "/var" <> "/").
  { change (B ++ "/var") with (B ++ "/" ++ "var").
    rewrite <- (under_clean B "var" HB1 HB2).
    destruct (under_not_special B "var" eq_refl) as (_ & H1 & H2). tauto. }
  destruct HV1 as [HVd HVr].
  unfold SetDatadir. cbn [PidFile ErrorLog Listen Exec NewProcess].
  rewrite !Join_under by reflexivity. rewrite HV.
  rewrite !(under_clean (B ++ "/var") _ HVd HVr).
  repeat split; apply var_file_assoc.
Qed.

Lemma TestProcess_SetPrefix_witness :
  let basepath := path.Join ["/home/user/gophpfpm"; "_test"] in
  let process := SetDatadir (NewProcess "/usr/sbin/php5-fpm") (basepath ++ "/var") in
  PidFile process = basepath ++ "/var/phpfpm.pid"
  /\ ErrorLog process = basepath ++ "/var/phpfpm.error_log"
  /\ Listen process = basepath ++ "/var/phpfpm.sock"
  /\ Exec process = "/usr/sbin/php5-fpm".
Proof.
  apply (TestProcess_SetPrefix_passes "/home/user/gophpfpm" "/usr/sbin/php5-fpm").
  reflexivity.
Defined.

(** ** A worker that is late *)

(** The first attempt that succeeds, with no receiver waiting when it
    returns, leaves the goroutine at its send, however long it is
    watched. *)
Lemma waitConn_loop_unreceived env listen recv (n : nat) :
  forall (k : nat) (t : Z) (c : Conn),
    (forall i, i < n -> env_dial env (k + i) "unix" listen = None) ->
    env_dial env (k + n) "unix" listen = Some c ->
    recv (dial_done env k n t) = false ->
    forall fuel, n < fuel ->
      snd (fst (waitConn_loop env listen recv fuel k t)) = GBlocked c
      /\ existsb is_send
           (map snd (fst (fst (waitConn_loop env listen recv fuel k t))))
         = false.
Proof.
  induction n as [|n IH]; intros k t c Hfail Hok Hrecv fuel Hfuel.
  - destruct fuel as [|fuel]; [lia|].
    cbn [waitConn_loop dial_done] in *. rewrite Nat.add_0_r in Hok.
    rewrite Hok, Hrecv. split; reflexivity.
  - destruct fuel as [|fuel]; [lia|].
    cbn [waitConn_loop dial_done] in *.
    pose proof (Hfail 0 ltac:(lia)) as H0. rewrite Nat.add_0_r in H0.
    rewrite H0.
    destruct (IH (S k) (t + Z.of_N (env_dial_cost env k) + dial_pause)%Z c)
      with (fuel := fuel) as (Hst & Hev).
    + intros i Hi. replace (S k + i) with (k + S i) by lia.
      apply Hfail. lia.
    + replace (S k + n) with (k + S n) by lia. exact Hok.
    + exact Hrecv.
    + lia.
    + destruct (waitConn_loop env listen recv fuel (S k) _) as [[evs st] t'].
      cbn in *. split; assumption.
Qed.

Lemma select_receiving_gt (env : Env) (t : Z) :
  (ready_timeout < t)%Z -> select_receiving env t = false.
Proof.
  intros H. unfold select_receiving.
  replace (t <? ready_timeout)%Z with false by (symmetry; apply Z.ltb_ge; lia).
  replace (t =? ready_timeout)%Z with false by (symmetry; apply Z.eqb_neq; lia).
  reflexivity.
Qed.

(** X15.  A worker that is reached too late counts as not reached:
    when the first attempt that succeeds returns after the four
    seconds, [Start] returns "time out" at the four seconds, with the
    process running; and the goroutine, which did connect, stays at
    its send for ever, having handed nothing off. *)
Theorem Start_times_out_on_late_connection
    (proc : Process) (env : Env) (w : World) (o s : ReadCloser) (pid : Z)
    (n : nat) (c : Conn) :
  env_stdout_pipe env = inl o ->
  env_stderr_pipe env = inl s ->
  env_start env = inl pid ->
  (forall i, i < n -> env_dial env i "unix" (Listen proc) = None) ->
  env_dial env n "unix" (Listen proc) = Some c ->
  (ready_timeout < dial_done env 0 n 0)%Z ->
  (let '(proc', r, w') := Start proc env w in
   r = mkStartResult (Some o) (Some s) (Some (Err "time out"))
   /\ w_now w' = (w_now w + 4000000000)%Z
   /\ pid ∈ w_procs w')
  /\ forall fuel, n < fuel ->
       snd (fst (waitConn proc env (select_receiving env) fuel)) = GBlocked c
       /\ existsb is_send
            (map snd (fst (fst (waitConn proc env (select_receiving env) fuel))))
          = false.
Proof.
  intros Ho Hs Hp Hfail Hok Hlate. split.
  - rewrite (Start_spawned proc env w o s pid Ho Hs Hp).
    pose proof (waitConn_loop_exited env (Listen proc) (select_receiving env)
                  probe_fuel 0 0) as Hex.
    destruct (waitConn_loop _ _ _ _ _ _) as [[evs st] t].
    assert (Hin : pid ∈ {[pid]} ∪ w_procs w)
      by (apply elem_of_union_l, elem_of_singleton; reflexivity).
    destruct st as [k'|c'|].
    + repeat split. exact Hin.
    + repeat split. exact Hin.
    + exfalso.
      destruct (Hex evs t eq_refl) as (n' & c' & _ & Hfail' & Hok' & Ht & Hr).
      cbn [Nat.add] in Hfail', Hok'.
      assert (n' = n).
      { destruct (Nat.lt_trichotomy n' n) as [Hlt|[Heq|Hgt]]; [|exact Heq|].
        - rewrite (Hfail n' Hlt) in Hok'. discriminate.
        - rewrite (Hfail' n Hgt) in Hok. discriminate. }
      subst n' t. apply (select_receiving_le env) in Hr. lia.
  - intros fuel Hfuel. unfold waitConn.
    apply (waitConn_loop_unreceived env (Listen proc) (select_receiving env)
             n 0 0%Z c Hfail Hok (select_receiving_gt env _ Hlate) fuel Hfuel).
Qed.

Lemma Start_late_connection_witness :
  (let '(proc', r, w') := Start proc_var env_late world0 in
   r = mkStartResult (Some (PipeReader 3)) (Some (PipeReader 4))
                     (Some (Err "time out"))
   /\ w_now w' = (w_now world0 + 4000000000)%Z
   /\ 4242%Z ∈ w_procs w')
  /\ forall fuel, 0 < fuel ->
       snd (fst (waitConn proc_var env_late (select_receiving env_late) fuel))
       = GBlocked (NetConn 5)
       /\ existsb is_send
            (map snd (fst (fst (waitConn proc_var env_late
                                         (select_receiving env_late) fuel))))
          = false.
Proof.
  apply (Start_times_out_on_late_connection
           proc_var env_late world0 (PipeReader 3) (PipeReader 4) 4242%Z
           0 (NetConn 5));
    try reflexivity.
  intros i Hi. lia.
Defined.

(** X16.  Once [Start] has spawned the process, the descriptor holds
    the handle of that process whether [Start] then returns success or
    "time out", and whatever handle it held before: a [Stop] right
    after [Start] sends SIGINT to the process just spawned. *)
Theorem Stop_reaches_process_after_Start
    (proc : Process) (env : Env) (w : World) (o s : ReadCloser) (pid : Z) :
  env_stdout_pipe env = inl o ->
  env_stderr_pipe env = inl s ->
  env_start env = inl pid ->
  let '(proc', r, w') := Start proc env w in
  cmd proc' = Some (exec.mkCmd (Exec proc)
                      (fpm_args (Exec proc) (ConfigFile proc))
                      (Some (os.mkProcess pid)))
  /\ w_procs w' = {[pid]} ∪ w_procs w
  /\ Stop proc' env w'
     = (Returned (env_signal env pid os.SIGINT),
        emit w' [EvSignal pid os.SIGINT]).
Proof.
  intros Ho Hs Hp. rewrite (Start_spawned proc env w o s pid Ho Hs Hp).
  destruct (waitConn_loop _ _ _ _ _ _) as [[evs st] t].
  assert (Hin : pid ∈ {[pid]} ∪ w_procs w)
    by (apply elem_of_union_l, elem_of_singleton; reflexivity).
  destruct st as [k'|c|];
    (split; [reflexivity|]; split; [reflexivity|];
     unfold Stop; cbn [cmd started set_cmd exec.Process os.Pid];
     rewrite Signal_live; [reflexivity | exact Hin]).
Qed.

Lemma Stop_reaches_process_witness :
  let '(proc', r, w') := Start proc_running env_deaf world_running in
  cmd proc' = Some (exec.mkCmd (Exec proc_running)
                      (fpm_args (Exec proc_running) (ConfigFile proc_running))
                      (Some (os.mkProcess 4242)))
  /\ w_procs w' = {[4242%Z]} ∪ w_procs world_running
  /\ Stop proc' env_deaf w'
     = (Returned (env_signal env_deaf 4242 os.SIGINT),
        emit w' [EvSignal 4242 os.SIGINT]).
Proof.
  apply (Stop_reaches_process_after_Start
           proc_running env_deaf world_running (PipeReader 3) (PipeReader 4)
           4242%Z);
    reflexivity.
Defined.

Lemma waitConn_sends_once_witness :
  let r := waitConn_loop env_ok "/tmp/var/phpfpm.sock"
                         (select_receiving env_ok) 5 0 0 in
  length (List.filter is_send (map snd (fst (fst r)))) = 1
  /\ exists pre c, map snd (fst (fst r)) = (pre ++ [EvSend c])%list
                   /\ existsb is_send pre = false.
Proof.
  pose proof (waitConn_sends_at_most_once env_ok "/tmp/var/phpfpm.sock"
                5 0 0%Z) as H.
  cbn zeta.
  destruct (waitConn_loop env_ok "/tmp/var/phpfpm.sock"
                          (select_receiving env_ok) 5 0 0)
    as [[evs st] t] eqn:E.
  assert (Hst : st = GExited) by (vm_compute in E; now injection E as _ <- _).
  subst st. destruct H as [H1 H2]. split; [exact H1 | now apply H2].
Defined.
